(** * node-sass native binding (src/binding.cpp)

    A shallow embedding of the five entry points of the binding
    ([OldRender], [Render], [RenderSync], [RenderFile], [RenderFileSync]),
    of the two worker functions and of the three completion handlers,
    over an explicit heap of allocated blocks.

    Every [new], [delete], callback invocation and call into libsass of the
    source is one step of a small state-and-log monad, so that ownership of
    the per-request buffers can be stated and checked.  A [delete] of a block
    that is not live, and a read through a pointer with nothing behind it,
    are undefined behaviour in the source: there the run stops, and what is
    stated about it is stated about the heap and the log at that point. *)

From stdpp Require Import base numbers option list strings gmap.

Local Open Scope Z_scope.

(** ** Host values and 32-bit conversion *)

(** [args[i]->Int32Value()]: the stored [int] is the argument reduced to the
    signed 32-bit range. *)
Definition Int32Value (z : Z) : Z :=
  (z + 2147483648) `mod` 4294967296 - 2147483648.

(** The characters of a buffer up to its first NUL: what [strlen], [strcpy]
    and [String::New] see. *)
Fixpoint c_str (s : string) : string :=
  match s with
  | EmptyString => EmptyString
  | String c r => if Ascii.eqb c Ascii.zero then EmptyString else String c (c_str r)
  end.

Definition strlen (s : string) : nat := String.length (c_str s).

Inductive value :=
  | VUndefined
  | VNull
  | VString (s : string).

(** A JavaScript function handed in by the caller.  The binding only ever
    calls it; [fn_throws argv] tells whether that call raises. *)
Record js_function := JsFunction {
  fn_name : string;
  fn_throws : list value → bool
}.

(** ** Heap *)

Abbreviation ptr := (option nat).

Inductive origin :=
  | AsciiValueBuffer   (* the buffer inside a [String::AsciiValue] local *)
  | NewCharArray       (* [new char[n]] in the binding *)
  | ContextStruct      (* [sass_new_context] / [sass_new_file_context] *)
  | WrapperStruct      (* [sass_new_context_wrapper] and its file twin *)
  | NanCallbackObject  (* [new NanCallback(...)] *)
  | EngineString.      (* a result string written by libsass *)

Record block := Block {
  b_origin : origin;
  b_size : nat;
  b_data : option string;   (* [None]: never written *)
  b_frees : nat             (* how many times it was released *)
}.

Record heap := Heap {
  next : nat;
  blocks : gmap nat block
}.

Definition empty_heap : heap := Heap 0%nat ∅.

Definition free_block (b : block) : block :=
  Block (b_origin b) (b_size b) (b_data b) (S (b_frees b)).

Definition write_block (s : string) (b : block) : block :=
  Block (b_origin b) (b_size b) (Some s) (b_frees b).

(** What a reader finds behind a pointer. *)
Inductive contents :=
  | CNull                 (* the pointer is NULL *)
  | CDangling             (* the block has been released (or never existed) *)
  | CUninitialised        (* allocated, never written *)
  | CText (s : string).

Definition deref (h : heap) (p : ptr) : contents :=
  match p with
  | None => CNull
  | Some l =>
      match blocks h !! l with
      | None => CDangling
      | Some b =>
          match b_frees b with
          | O => match b_data b with
                 | None => CUninitialised
                 | Some s => CText (c_str s)
                 end
          | S _ => CDangling
          end
      end
  end.

(** A block that [delete] may be handed: allocated and not yet released. *)
Definition live (h : heap) (l : nat) : bool :=
  match blocks h !! l with
  | Some b => Nat.eqb (b_frees b) 0
  | None => false
  end.

(** ** libsass structures (sass_interface.h) and the wrappers *)

Record sass_options := SassOptions {
  output_style : Z;
  source_comments : Z;
  include_paths : ptr;
  image_path : ptr
}.

Record sass_context := SassContext {
  source_string : ptr;
  output_string : ptr;
  options : sass_options;
  error_status : Z;
  error_message : ptr
}.

Record sass_file_context := SassFileContext {
  input_path : ptr;
  file_output_string : ptr;
  source_map_string : ptr;
  source_map_file : ptr;
  file_options : sass_options;
  file_error_status : Z;
  file_error_message : ptr
}.

Record nan_callback := NanCallback {
  cb_addr : nat;
  cb_function : js_function
}.

Record sass_context_wrapper := SassContextWrapper {
  wrapper_addr : nat;
  ctx_addr : nat;
  ctx : sass_context;
  callback : option nan_callback;
  errorCallback : option nan_callback
}.

Record sass_file_context_wrapper := SassFileContextWrapper {
  file_wrapper_addr : nat;
  file_ctx_addr : nat;
  file_ctx : sass_file_context;
  file_callback : option nan_callback;
  file_errorCallback : option nan_callback
}.

(** Modelled from the spec: the constant [SASS_SOURCE_COMMENTS_MAP] lives in
    sass_interface.h, which is not part of the binding; the numeric encoding
    None=0, Inline=1, Map=2 is fixed by the compatibility contract. *)
Definition SASS_SOURCE_COMMENTS_MAP : Z := 2.

(** Modelled from the spec: the allocators [sass_new_context] and
    [sass_new_file_context] are declared in the missing headers; a fresh
    context carries no request data and no result yet (all fields zero). *)
Definition zero_options : sass_options := SassOptions 0 0 None None.
Definition zero_context : sass_context := SassContext None None zero_options 0 None.
Definition zero_file_context : sass_file_context :=
  SassFileContext None None None None zero_options 0 None.

(** *** Field assignment

    One function per assignment [ctx->field = v] of the source. *)

Definition set_source_string (p : ptr) (c : sass_context) : sass_context :=
  let 'SassContext _ out (SassOptions style comments inc img) status msg := c in
  SassContext p out (SassOptions style comments inc img) status msg.
Definition set_include_paths (p : ptr) (c : sass_context) : sass_context :=
  let 'SassContext src out (SassOptions style comments _ img) status msg := c in
  SassContext src out (SassOptions style comments p img) status msg.
Definition set_image_path (p : ptr) (c : sass_context) : sass_context :=
  let 'SassContext src out (SassOptions style comments inc _) status msg := c in
  SassContext src out (SassOptions style comments inc p) status msg.
Definition set_output_style (z : Z) (c : sass_context) : sass_context :=
  let 'SassContext src out (SassOptions _ comments inc img) status msg := c in
  SassContext src out (SassOptions z comments inc img) status msg.
Definition set_source_comments (z : Z) (c : sass_context) : sass_context :=
  let 'SassContext src out (SassOptions style _ inc img) status msg := c in
  SassContext src out (SassOptions style z inc img) status msg.
(** What [sass_compile] writes. *)
Definition set_result (out : ptr) (status : Z) (msg : ptr) (c : sass_context) : sass_context :=
  let 'SassContext src _ (SassOptions style comments inc img) _ _ := c in
  SassContext src out (SassOptions style comments inc img) status msg.

Definition set_input_path (p : ptr) (c : sass_file_context) : sass_file_context :=
  let 'SassFileContext _ out map mapf (SassOptions style comments inc img) status msg := c in
  SassFileContext p out map mapf (SassOptions style comments inc img) status msg.
Definition set_source_map_file (p : ptr) (c : sass_file_context) : sass_file_context :=
  let 'SassFileContext path out map _ (SassOptions style comments inc img) status msg := c in
  SassFileContext path out map p (SassOptions style comments inc img) status msg.
Definition set_file_include_paths (p : ptr) (c : sass_file_context) : sass_file_context :=
  let 'SassFileContext path out map mapf (SassOptions style comments _ img) status msg := c in
  SassFileContext path out map mapf (SassOptions style comments p img) status msg.
Definition set_file_image_path (p : ptr) (c : sass_file_context) : sass_file_context :=
  let 'SassFileContext path out map mapf (SassOptions style comments inc _) status msg := c in
  SassFileContext path out map mapf (SassOptions style comments inc p) status msg.
Definition set_file_output_style (z : Z) (c : sass_file_context) : sass_file_context :=
  let 'SassFileContext path out map mapf (SassOptions _ comments inc img) status msg := c in
  SassFileContext path out map mapf (SassOptions z comments inc img) status msg.
Definition set_file_source_comments (z : Z) (c : sass_file_context) : sass_file_context :=
  let 'SassFileContext path out map mapf (SassOptions style _ inc img) status msg := c in
  SassFileContext path out map mapf (SassOptions style z inc img) status msg.
(** What [sass_compile_file] writes. *)
Definition set_file_result (out map : ptr) (status : Z) (msg : ptr)
    (c : sass_file_context) : sass_file_context :=
  let 'SassFileContext path _ _ mapf (SassOptions style comments inc img) _ _ := c in
  SassFileContext path out map mapf (SassOptions style comments inc img) status msg.

(** ** What libsass is handed, and what it answers *)

(** The request as the engine reads it through the context's pointers at the
    moment [sass_compile] is entered. *)
Record sass_request := SassRequest {
  req_source_string : contents;
  req_include_paths : contents;
  req_image_path : contents;
  req_output_style : Z;
  req_source_comments : Z
}.

Record sass_file_request := SassFileRequest {
  freq_input_path : contents;
  freq_include_paths : contents;
  freq_image_path : contents;
  freq_output_style : Z;
  freq_source_comments : Z;
  freq_source_map_file : contents
}.

(** The fields the engine writes back ([None] is a NULL pointer). *)
Record sass_result := SassResult {
  res_error_status : Z;
  res_output_string : option string;
  res_error_message : option string;
  res_source_map_string : option string
}.

(** libsass itself is an external collaborator: the compiler is any function
    from the request it reads to the fields it writes, and each of the four
    release functions is known only by the list of addresses it frees. *)
Class SassInterface := {
  sass_compile : sass_request → sass_result;
  sass_compile_file : sass_file_request → sass_result;
  sass_free_context : nat → sass_context → list nat;
  sass_free_file_context : nat → sass_file_context → list nat;
  sass_free_context_wrapper : sass_context_wrapper → list nat;
  sass_free_file_context_wrapper : sass_file_context_wrapper → list nat
}.

(** ** Observable steps *)

Inductive slot := CallbackSlot | ErrorCallbackSlot.

Inductive event :=
  | EvCall (s : slot) (f : js_function) (argv : list value)
  | EvFatalException
  | EvFree (l : nat)
  | EvCompile (r : sass_request)
  | EvCompileFile (r : sass_file_request).

(** ** The monad: heap state, event log, and runs that stop short *)

Record run (A : Type) := Run {
  result : A;
  final : heap;
  events : list event
}.
Arguments Run {A} _ _ _.
Arguments result {A} _.
Arguments final {A} _.
Arguments events {A} _.

(** Why a run stops short of its result. *)
Inductive fault :=
  | NothingToRead            (* a read or a call through a pointer with nothing behind it *)
  | DoubleDelete (l : nat).  (* [delete] of a block that is not live *)

(** A run either finishes with a result, or stops at a fault; in both cases
    the heap and the log up to there are kept. *)
Inductive ending (A : Type) :=
  | Finished (r : run A)
  | Stopped (f : fault) (h : heap) (evs : list event).
Arguments Finished {A} _.
Arguments Stopped {A} _ _ _.

Definition M (A : Type) : Type := heap → ending A.

Definition ret {A} (a : A) : M A := fun h => Finished (Run a h []).

Definition bind {A B} (m : M A) (k : A → M B) : M B := fun h =>
  match m h with
  | Stopped f h' evs => Stopped f h' evs
  | Finished r1 =>
      match k (result r1) (final r1) with
      | Stopped f h' evs => Stopped f h' (events r1 ++ evs)
      | Finished r2 => Finished (Run (result r2) (final r2) (events r1 ++ events r2))
      end
  end.

Declare Scope binding_scope.
Delimit Scope binding_scope with binding.
Notation "'let*' x ':=' m 'in' k" := (bind m (fun x => k))
  (at level 10, x name, m at level 100, k at level 200) : binding_scope.
Notation "'run*' m 'in' k" := (bind m (fun _ => k))
  (at level 10, m at level 100, k at level 200) : binding_scope.
Local Open Scope binding_scope.

Definition crash {A} : M A := fun h => Stopped NothingToRead h [].

Definition emit (e : event) : M unit := fun h => Finished (Run tt h [e]).

Definition get_heap : M heap := fun h => Finished (Run h h []).

Definition alloc (o : origin) (size : nat) (d : option string) : M nat := fun h =>
  Finished
    (Run (next h) (Heap (S (next h)) (<[next h := Block o size d 0%nat]> (blocks h))) []).

Definition write (l : nat) (s : string) : M unit := fun h =>
  Finished (Run tt (Heap (next h) (alter (write_block s) l (blocks h))) []).

(** [delete p] in the binding: nothing on NULL; a live block is released; a
    block that is not live any more is a double delete, and the run stops
    there, the block counted as released once more. *)
Definition release (p : ptr) : M unit := fun h =>
  match p with
  | None => Finished (Run tt h [])
  | Some l =>
      let h' := Heap (next h) (alter free_block l (blocks h)) in
      if live h l then Finished (Run tt h' [EvFree l])
      else Stopped (DoubleDelete l) h' [EvFree l]
  end.

(** A release inside libsass or the wrapper module.  Their code is not part
    of the binding: the model counts the release and does not judge it. *)
Definition engine_free (l : nat) : M unit := fun h =>
  Finished (Run tt (Heap (next h) (alter free_block l (blocks h))) [EvFree l]).

Fixpoint release_all (ls : list nat) : M unit :=
  match ls with
  | [] => ret tt
  | l :: ls' => run* engine_free l in release_all ls'
  end.

(** ** Pieces of the host runtime *)

(** A [String::AsciiValue] local: it allocates its own character buffer when
    constructed and releases it when the enclosing function is left. *)
Record AsciiValue := MkAsciiValue {
  av_addr : nat;
  av_chars : string
}.

Definition new_AsciiValue (s : string) : M AsciiValue :=
  let* l := alloc AsciiValueBuffer (String.length s + 1)%nat (Some s) in
  ret (MkAsciiValue l s).

Definition delete_AsciiValue (a : AsciiValue) : M unit :=
  release (Some (av_addr a)).

Definition new_char_array (n : nat) : M nat := alloc NewCharArray n None.

Definition strcpy (dst : nat) (src : AsciiValue) : M unit :=
  write dst (c_str (av_chars src)).

Definition new_NanCallback (f : js_function) : M nan_callback :=
  let* l := alloc NanCallbackObject 0%nat None in
  ret (NanCallback l f).

(** [String::New(p)]: reads the characters behind [p]; there is nothing to
    read behind a NULL or released pointer, and the run stops. *)
Definition String_New (p : ptr) : M value :=
  let* h := get_heap in
  match deref h p with
  | CText s => ret (VString s)
  | _ => crash
  end.

(** [cb->Call(argc, argv)] under the handler's [TryCatch]: the answer is
    [try_catch.HasCaught()]. *)
Definition Call (cb : option nan_callback) (s : slot) (argv : list value) : M bool :=
  match cb with
  | None => crash
  | Some c =>
      run* emit (EvCall s (cb_function c) argv) in
      ret (fn_throws (cb_function c) argv)
  end.

(** [if (try_catch.HasCaught()) node::FatalException(try_catch);] followed,
    as in the source, by the rest of the handler. *)
Definition FatalException_if (caught : bool) : M unit :=
  if caught then emit EvFatalException else ret tt.

(** What an entry point hands back to JavaScript. *)
Inductive completion :=
  | ReturnValue (v : value)
  | ThrowError (v : value)
  | AssertionFailed.

(** The two facts about the build and the event loop an entry point depends
    on: the status [uv_queue_work] answers, and whether [assert] is compiled
    out. *)
Record host := Host {
  uv_queue_work_status : Z;
  NDEBUG : bool
}.

(** A queued request: the wrapper together with the pair of functions that
    was passed to [uv_queue_work]. *)
Inductive work :=
  | RenderWork (w : sass_context_wrapper)
  | OldRenderWork (w : sass_context_wrapper)
  | RenderFileWork (w : sass_file_context_wrapper).

(** [uv_queue_work(loop, &req, work_cb, after_work_cb)]: the request is
    queued exactly when the status is 0. *)
Definition uv_queue_work (e : host) (w : work) : Z * option work :=
  (uv_queue_work_status e,
   if uv_queue_work_status e =? 0 then Some w else None).

(** [assert(c)] aborts the process when [c] is false, unless compiled out. *)
Definition assert_fails (e : host) (c : bool) : bool :=
  negb (NDEBUG e) && negb c.

(** ** The binding *)

Section Binding.
Context `{Sass : SassInterface}.

Definition request_of (h : heap) (c : sass_context) : sass_request :=
  SassRequest (deref h (source_string c))
              (deref h (include_paths (options c)))
              (deref h (image_path (options c)))
              (output_style (options c))
              (source_comments (options c)).

Definition file_request_of (h : heap) (c : sass_file_context) : sass_file_request :=
  SassFileRequest (deref h (input_path c))
                  (deref h (include_paths (file_options c)))
                  (deref h (image_path (file_options c)))
                  (output_style (file_options c))
                  (source_comments (file_options c))
                  (deref h (source_map_file c)).

Definition engine_string (o : option string) : M ptr :=
  match o with
  | None => ret None
  | Some s =>
      let* l := alloc EngineString (String.length s + 1)%nat (Some s) in
      ret (Some l)
  end.

(** [sass_compile(ctx)]: libsass reads the request through the context and
    writes its result fields. *)
Definition call_sass_compile (c : sass_context) : M sass_context :=
  let* h := get_heap in
  let req := request_of h c in
  run* emit (EvCompile req) in
  let res := sass_compile req in
  let* out := engine_string (res_output_string res) in
  let* msg := engine_string (res_error_message res) in
  ret (set_result out (res_error_status res) msg c).

(** [sass_compile_file(ctx)]. *)
Definition call_sass_compile_file (c : sass_file_context) : M sass_file_context :=
  let* h := get_heap in
  let req := file_request_of h c in
  run* emit (EvCompileFile req) in
  let res := sass_compile_file req in
  let* out := engine_string (res_output_string res) in
  let* map := engine_string (res_source_map_string res) in
  let* msg := engine_string (res_error_message res) in
  ret (set_file_result out map (res_error_status res) msg c).

Definition WorkOnContext (w : sass_context_wrapper) : M sass_context_wrapper :=
  let* c := call_sass_compile (ctx w) in
  ret (SassContextWrapper (wrapper_addr w) (ctx_addr w) c (callback w) (errorCallback w)).

Definition MakeOldCallback (w : sass_context_wrapper) : M unit :=
  let c := ctx w in
  let* caught :=
    (if error_status c =? 0 then
       (* if no error, do callback(null, result) *)
       let* out := String_New (output_string c) in
       Call (callback w) CallbackSlot [VNull; out]
     else
       (* if error, do callback(error) *)
       let* err := String_New (error_message c) in
       Call (callback w) CallbackSlot [err]) in
  run* FatalException_if caught in
  run* release (source_string c) in
  release_all (sass_free_context_wrapper w).

Definition OldRender (source : string) (cb : js_function) (includePaths : string)
    (outputStyle sourceComments : Z) (e : host) : M (completion * option work) :=
  let* ctx_a := alloc ContextStruct 0%nat None in
  let c := zero_context in
  let* w_a := alloc WrapperStruct 0%nat None in
  let* astr := new_AsciiValue source in
  let* bstr := new_AsciiValue includePaths in
  let* src := new_char_array (strlen (av_chars astr) + 1) in
  run* strcpy src astr in
  let c := set_source_string (Some src) c in
  let* inc := new_char_array (strlen (av_chars bstr) + 1) in
  let c := set_include_paths (Some inc) c in
  let* img := new_char_array 0 in
  let c := set_image_path (Some img) c in
  let c := set_include_paths (Some (av_addr bstr)) c in
  let c := set_output_style (Int32Value outputStyle) c in
  let c := set_source_comments (Int32Value sourceComments) c in
  let* ncb := new_NanCallback cb in
  let w := SassContextWrapper w_a ctx_a c (Some ncb) None in
  let (status, queued) := uv_queue_work e (OldRenderWork w) in
  if assert_fails e (status =? 0) then ret (AssertionFailed, None) else
  run* delete_AsciiValue bstr in
  run* delete_AsciiValue astr in
  ret (ReturnValue VUndefined, queued).

Definition MakeCallback (w : sass_context_wrapper) : M unit :=
  let c := ctx w in
  let* caught :=
    (if error_status c =? 0 then
       let* out := String_New (output_string c) in
       Call (callback w) CallbackSlot [out]
     else
       let* err := String_New (error_message c) in
       Call (errorCallback w) ErrorCallbackSlot [err]) in
  run* FatalException_if caught in
  run* release (source_string c) in
  release_all (sass_free_context_wrapper w).

Definition Render (source : string) (cb errorCb : js_function) (includePaths : string)
    (outputStyle sourceComments : Z) (e : host) : M (completion * option work) :=
  let* ctx_a := alloc ContextStruct 0%nat None in
  let c := zero_context in
  let* w_a := alloc WrapperStruct 0%nat None in
  let* astr := new_AsciiValue source in
  let* bstr := new_AsciiValue includePaths in
  let* src := new_char_array (strlen (av_chars astr) + 1) in
  run* strcpy src astr in
  let c := set_source_string (Some src) c in
  let* inc := new_char_array (strlen (av_chars bstr) + 1) in
  let c := set_include_paths (Some inc) c in
  let c := set_include_paths (Some (av_addr bstr)) c in
  let* img := new_char_array 0 in
  let c := set_image_path (Some img) c in
  let c := set_output_style (Int32Value outputStyle) c in
  let c := set_source_comments (Int32Value sourceComments) c in
  let* ncb := new_NanCallback cb in
  let* necb := new_NanCallback errorCb in
  let w := SassContextWrapper w_a ctx_a c (Some ncb) (Some necb) in
  let (status, queued) := uv_queue_work e (RenderWork w) in
  if assert_fails e (status =? 0) then ret (AssertionFailed, None) else
  run* delete_AsciiValue bstr in
  run* delete_AsciiValue astr in
  ret (ReturnValue VUndefined, queued).

Definition RenderSync (source includePaths : string) (outputStyle sourceComments : Z)
    : M completion :=
  let* ctx_a := alloc ContextStruct 0%nat None in
  let c := zero_context in
  let* astr := new_AsciiValue source in
  let* bstr := new_AsciiValue includePaths in
  let* src := new_char_array (strlen (av_chars astr) + 1) in
  run* strcpy src astr in
  let c := set_source_string (Some src) c in
  let* inc := new_char_array (strlen (av_chars bstr) + 1) in
  let c := set_include_paths (Some inc) c in
  let c := set_include_paths (Some (av_addr bstr)) c in
  let c := set_output_style (Int32Value outputStyle) c in
  let* img := new_char_array 0 in
  let c := set_image_path (Some img) c in
  let c := set_source_comments (Int32Value sourceComments) c in
  let* c := call_sass_compile c in
  run* release (source_string c) in
  let c := set_source_string None c in
  run* release (include_paths (options c)) in
  let c := set_include_paths None c in
  run* release (image_path (options c)) in
  let c := set_image_path None c in
  if error_status c =? 0 then
    let* output := String_New (output_string c) in
    run* release_all (sass_free_context ctx_a c) in
    run* delete_AsciiValue bstr in
    run* delete_AsciiValue astr in
    ret (ReturnValue output)
  else
    let* error := String_New (error_message c) in
    run* release_all (sass_free_context ctx_a c) in
    run* delete_AsciiValue bstr in
    run* delete_AsciiValue astr in
    ret (ThrowError error).

(** *** Rendering files *)

Definition WorkOnFileContext (w : sass_file_context_wrapper) : M sass_file_context_wrapper :=
  let* c := call_sass_compile_file (file_ctx w) in
  ret (SassFileContextWrapper (file_wrapper_addr w) (file_ctx_addr w) c
                              (file_callback w) (file_errorCallback w)).

Definition MakeFileCallback (w : sass_file_context_wrapper) : M unit :=
  let c := file_ctx w in
  let* caught :=
    (if file_error_status c =? 0 then
       let* source_map :=
         (if source_comments (file_options c) =? SASS_SOURCE_COMMENTS_MAP
          then String_New (source_map_string c)
          else ret VNull) in
       let* out := String_New (file_output_string c) in
       Call (file_callback w) CallbackSlot [out; source_map]
     else
       let* err := String_New (file_error_message c) in
       Call (file_errorCallback w) ErrorCallbackSlot [err]) in
  run* FatalException_if caught in
  run* release (input_path c) in
  release_all (sass_free_file_context_wrapper w).

Definition RenderFile (path : string) (cb errorCb : js_function) (includePaths : string)
    (outputStyle sourceComments : Z) (sourceMapPath : string) (e : host)
    : M (completion * option work) :=
  let* ctx_a := alloc ContextStruct 0%nat None in
  let c := zero_file_context in
  let* w_a := alloc WrapperStruct 0%nat None in
  let* astr := new_AsciiValue path in
  let* bstr := new_AsciiValue includePaths in
  let* cstr := new_AsciiValue sourceMapPath in
  let* filename := new_char_array (strlen (av_chars astr) + 1) in
  run* strcpy filename astr in
  let c := set_input_path (Some filename) c in
  let* inc := new_char_array (strlen (av_chars bstr) + 1) in
  let c := set_file_include_paths (Some inc) c in
  let c := set_file_include_paths (Some (av_addr bstr)) c in
  let c := set_file_output_style (Int32Value outputStyle) c in
  let* img := new_char_array 0 in
  let c := set_file_image_path (Some img) c in
  let c := set_file_source_comments (Int32Value sourceComments) c in
  let* c :=
    (if source_comments (file_options c) =? SASS_SOURCE_COMMENTS_MAP then
       let* map := new_char_array (strlen (av_chars cstr) + 1) in
       run* strcpy map cstr in
       ret (set_source_map_file (Some map) c)
     else ret c) in
  let* ncb := new_NanCallback cb in
  let* necb := new_NanCallback errorCb in
  let w := SassFileContextWrapper w_a ctx_a c (Some ncb) (Some necb) in
  let (status, queued) := uv_queue_work e (RenderFileWork w) in
  if assert_fails e (status =? 0) then ret (AssertionFailed, None) else
  run* delete_AsciiValue cstr in
  run* delete_AsciiValue bstr in
  run* delete_AsciiValue astr in
  ret (ReturnValue VUndefined, queued).

Definition RenderFileSync (path includePaths : string) (outputStyle sourceComments : Z)
    : M completion :=
  let* ctx_a := alloc ContextStruct 0%nat None in
  let c := zero_file_context in
  let* astr := new_AsciiValue path in
  let* bstr := new_AsciiValue includePaths in
  let* filename := new_char_array (strlen (av_chars astr) + 1) in
  run* strcpy filename astr in
  let c := set_input_path (Some filename) c in
  let* inc := new_char_array (strlen (av_chars bstr) + 1) in
  let c := set_file_include_paths (Some inc) c in
  let c := set_file_include_paths (Some (av_addr bstr)) c in
  let* img := new_char_array 0 in
  let c := set_file_image_path (Some img) c in
  let c := set_file_output_style (Int32Value outputStyle) c in
  let c := set_file_source_comments (Int32Value sourceComments) c in
  let* c := call_sass_compile_file c in
  run* release (input_path c) in
  let c := set_input_path None c in
  run* release (include_paths (file_options c)) in
  let c := set_file_include_paths None c in
  run* release (image_path (file_options c)) in
  let c := set_file_image_path None c in
  if file_error_status c =? 0 then
    let* output := String_New (file_output_string c) in
    run* release_all (sass_free_file_context ctx_a c) in
    run* delete_AsciiValue bstr in
    run* delete_AsciiValue astr in
    ret (ReturnValue output)
  else
    let* error := String_New (file_error_message c) in
    run* release_all (sass_free_file_context ctx_a c) in
    run* delete_AsciiValue bstr in
    run* delete_AsciiValue astr in
    ret (ThrowError error).

(** *** The event loop's part *)

(** The first function given to [uv_queue_work], run on a pool thread. *)
Definition work_cb (k : work) : M work :=
  match k with
  | RenderWork w => let* w' := WorkOnContext w in ret (RenderWork w')
  | OldRenderWork w => let* w' := WorkOnContext w in ret (OldRenderWork w')
  | RenderFileWork w => let* w' := WorkOnFileContext w in ret (RenderFileWork w')
  end.

(** The second one, run on the loop thread once the first has finished. *)
Definition after_work_cb (k : work) : M unit :=
  match k with
  | RenderWork w => MakeCallback w
  | OldRenderWork w => MakeOldCallback w
  | RenderFileWork w => MakeFileCallback w
  end.

(** An asynchronous request from entry to completion, in the schedule where
    the entry point has returned to JavaScript (and its locals are gone)
    before the pool thread picks the request up; the completion handler runs
    on the loop thread after both in every schedule. *)
Definition run_to_completion (entry : M (completion * option work)) : M completion :=
  let* r := entry in
  match r.2 with
  | None => ret r.1
  | Some k =>
      let* k' := work_cb k in
      run* after_work_cb k' in
      ret r.1
  end.

(** *** Two requests in flight

    Both entry points have returned, both requests have been worked on by
    the pool, and the loop thread runs the two completion handlers in one
    order or the other. *)
Definition worked (k : option work) : M (option work) :=
  match k with
  | None => ret None
  | Some k => let* k' := work_cb k in ret (Some k')
  end.

Definition completed (k : option work) : M unit :=
  match k with
  | None => ret tt
  | Some k => after_work_cb k
  end.

Definition overlapped (first second : M (completion * option work))
    (second_completes_first : bool) : M unit :=
  let* a := first in
  let* b := second in
  let* a' := worked a.2 in
  let* b' := worked b.2 in
  if second_completes_first
  then run* completed b' in completed a'
  else run* completed a' in completed b'.

End Binding.

(** ** Reading a log *)

Definition is_call (e : event) : bool :=
  match e with EvCall _ _ _ => true | _ => false end.

(** The callback invocations of a log, in order. *)
Definition calls (evs : list event) : list event := List.filter is_call evs.

(** The requests libsass was handed. *)
Definition as_compile (e : event) : option sass_request :=
  match e with EvCompile r => Some r | _ => None end.

Definition as_compile_file (e : event) : option sass_file_request :=
  match e with EvCompileFile r => Some r | _ => None end.

Definition compile_requests (evs : list event) : list sass_request :=
  omap as_compile evs.

Definition compile_file_requests (evs : list event) : list sass_file_request :=
  omap as_compile_file evs.

(** [argv[i]] as the callee reads it: a parameter past [argc] is
    [undefined]. *)
Definition argument (argv : list value) (i : nat) : value :=
  default VUndefined (argv !! i).

(** ** Reading a heap *)

Definition option_to_list {A} (o : option A) : list A :=
  match o with Some a => [a] | None => [] end.

(** Every address stored in a context, and in a wrapper: all a release
    function can get at through its argument. *)
Definition context_pointers (a : nat) (c : sass_context) : list nat :=
  a :: option_to_list (source_string c) ++ option_to_list (output_string c)
    ++ option_to_list (error_message c)
    ++ option_to_list (include_paths (options c))
    ++ option_to_list (image_path (options c)).

Definition file_context_pointers (a : nat) (c : sass_file_context) : list nat :=
  a :: option_to_list (input_path c) ++ option_to_list (file_output_string c)
    ++ option_to_list (source_map_string c) ++ option_to_list (source_map_file c)
    ++ option_to_list (file_error_message c)
    ++ option_to_list (include_paths (file_options c))
    ++ option_to_list (image_path (file_options c)).

Definition wrapper_pointers (w : sass_context_wrapper) : list nat :=
  wrapper_addr w :: option_to_list (cb_addr <$> callback w)
    ++ option_to_list (cb_addr <$> errorCallback w)
    ++ context_pointers (ctx_addr w) (ctx w).

Definition file_wrapper_pointers (w : sass_file_context_wrapper) : list nat :=
  file_wrapper_addr w :: option_to_list (cb_addr <$> file_callback w)
    ++ option_to_list (cb_addr <$> file_errorCallback w)
    ++ file_context_pointers (file_ctx_addr w) (file_ctx w).

(** The release functions of libsass and of the wrapper module free nothing
    but what their argument points to. *)
Class SassFreesReachable (Sass : SassInterface) : Prop := {
  free_context_reachable :
    ∀ a c, sass_free_context a c ⊆ context_pointers a c;
  free_file_context_reachable :
    ∀ a c, sass_free_file_context a c ⊆ file_context_pointers a c;
  free_context_wrapper_reachable :
    ∀ w, sass_free_context_wrapper w ⊆ wrapper_pointers w;
  free_file_context_wrapper_reachable :
    ∀ w, sass_free_file_context_wrapper w ⊆ file_wrapper_pointers w
}.

(** The heap after [release_all]. *)
Fixpoint free_blocks (ls : list nat) (m : gmap nat block) : gmap nat block :=
  match ls with
  | [] => m
  | l :: ls' => free_blocks ls' (alter free_block l m)
  end.

(** ** The contract of the compiler

    libsass reports a failure through [error_status] and [error_message]
    and never leaves the slot the binding is about to read empty: output on
    status 0, a message otherwise, and a source map when one was asked for
    with a map file. *)
Definition result_ok (res : sass_result) : Prop :=
  if res_error_status res =? 0 then is_Some (res_output_string res)
  else is_Some (res_error_message res).

Definition map_ok (req : sass_file_request) (res : sass_result) : Prop :=
  res_error_status res = 0 →
  freq_source_comments req = SASS_SOURCE_COMMENTS_MAP →
  (∃ s, freq_source_map_file req = CText s) →
  is_Some (res_source_map_string res).

Class SassContract (Sass : SassInterface) : Prop := {
  compile_ok : ∀ req, result_ok (sass_compile req);
  compile_file_ok : ∀ req, result_ok (sass_compile_file req);
  compile_file_map_ok : ∀ req, map_ok req (sass_compile_file req)
}.

(** Modelled from the spec: [sass_compile_file] is not in binding.cpp, and
    what it writes into [source_map_string] is known from the specified
    behaviour only: asked for a source map (comment mode Map) and given a
    valid map path, a successful compile yields non-empty source-map text.
    Which paths are valid is libsass's business too: [valid_path] stands for
    it. *)
Definition map_written (valid_path : string → Prop)
    (req : sass_file_request) (res : sass_result) : Prop :=
  res_error_status res = 0 →
  freq_source_comments req = SASS_SOURCE_COMMENTS_MAP →
  (∃ s, freq_source_map_file req = CText s ∧ valid_path s) →
  ∃ map, res_source_map_string res = Some map ∧ c_str map ≠ "".

Class SassWritesMaps (Sass : SassInterface) (valid_path : string → Prop) : Prop :=
  compile_file_writes_map : ∀ req, map_written valid_path req (sass_compile_file req).

(** ** Total-correctness triples for the monad

    [wp m h Q]: from heap [h], [m] finishes, and its result, final heap and
    log satisfy [Q]. *)
Definition wp {A} (m : M A) (h : heap) (Q : A → heap → list event → Prop) : Prop :=
  match m h with
  | Finished r => Q (result r) (final r) (events r)
  | Stopped _ _ _ => False
  end.

(** [stops m h Q]: from heap [h], [m] does not finish: it stops at a fault,
    and the fault, the heap and the log at that point satisfy [Q]. *)
Definition stops {A} (m : M A) (h : heap) (Q : fault → heap → list event → Prop) : Prop :=
  match m h with
  | Finished _ => False
  | Stopped f h' evs => Q f h' evs
  end.

(** ** What each entry point is expected to hand over and deliver *)

Definition text_of (o : option string) : string := c_str (default "" o).

(** The request of [Render] and [OldRender] as libsass finds it on the pool
    thread, and of [RenderSync] as it finds it inline. *)
Definition async_request (source : string) (style comments : Z) : sass_request :=
  SassRequest (CText (c_str source)) CDangling CUninitialised
              (Int32Value style) (Int32Value comments).

Definition sync_request (source includePaths : string) (style comments : Z) : sass_request :=
  SassRequest (CText (c_str source)) (CText (c_str includePaths)) CUninitialised
              (Int32Value style) (Int32Value comments).

Definition async_file_request (path : string) (style comments : Z) (sourceMapPath : string)
    : sass_file_request :=
  SassFileRequest (CText (c_str path)) CDangling CUninitialised
                  (Int32Value style) (Int32Value comments)
                  (if Int32Value comments =? SASS_SOURCE_COMMENTS_MAP
                   then CText (c_str sourceMapPath) else CNull).

Definition sync_file_request (path includePaths : string) (style comments : Z)
    : sass_file_request :=
  SassFileRequest (CText (c_str path)) (CText (c_str includePaths)) CUninitialised
                  (Int32Value style) (Int32Value comments) CNull.

(** Modern convention: which slot is called, and with what. *)
Definition modern_call (cb errorCb : js_function) (res : sass_result) : event :=
  if res_error_status res =? 0
  then EvCall CallbackSlot cb [VString (text_of (res_output_string res))]
  else EvCall ErrorCallbackSlot errorCb [VString (text_of (res_error_message res))].

Definition modern_file_call (cb errorCb : js_function) (comments : Z) (res : sass_result)
    : event :=
  if res_error_status res =? 0
  then EvCall CallbackSlot cb
         [VString (text_of (res_output_string res));
          if Int32Value comments =? SASS_SOURCE_COMMENTS_MAP
          then VString (text_of (res_source_map_string res)) else VNull]
  else EvCall ErrorCallbackSlot errorCb [VString (text_of (res_error_message res))].

(** Legacy convention. *)
Definition legacy_call (cb : js_function) (res : sass_result) : event :=
  if res_error_status res =? 0
  then EvCall CallbackSlot cb [VNull; VString (text_of (res_output_string res))]
  else EvCall CallbackSlot cb [VString (text_of (res_error_message res))].

(** ** What the caller ends up with *)

Inductive outcome :=
  | Delivered (text : string)
  | Failed (message : string).

(** Asynchronous variants: read off the single callback invocation. *)
Definition async_outcome (cs : list event) : option outcome :=
  match cs with
  | [EvCall CallbackSlot _ (VString s :: _)] => Some (Delivered s)
  | [EvCall ErrorCallbackSlot _ [VString s]] => Some (Failed s)
  | _ => None
  end.

(** What an answer of libsass amounts to for the caller. *)
Definition answer_outcome (res : sass_result) : outcome :=
  if res_error_status res =? 0
  then Delivered (text_of (res_output_string res))
  else Failed (text_of (res_error_message res)).

(** A failure is reported when an error is raised or some callback is
    invoked. *)
Definition reported (r : run completion) : Prop :=
  (∃ v, result r = ThrowError v) ∨ calls (events r) ≠ [].

(** An enumeration argument is policed when the stored value lies in the
    enumeration's range or the call is rejected. *)
Definition policed (lo hi stored : Z) (c : completion) : Prop :=
  (lo ≤ stored ≤ hi) ∨ (∃ v, c = ThrowError v).

(** * Sample libsass, callbacks and host used to run the model *)

Definition sample_compile (r : sass_request) : sass_result :=
  match req_source_string r with
  | CText s =>
      if String.eqb s "a{"
      then SassResult 1 None (Some "source string:1: error: invalid property name") None
      else SassResult 0 (Some ("/* css */ " +:+ s)) None None
  | _ => SassResult 1 None (Some "no input") None
  end.

(** Like libsass, the sample names the map file at the end of the output. *)
Definition sample_compile_file (r : sass_file_request) : sass_result :=
  match freq_input_path r, freq_source_map_file r with
  | CText p, CText m =>
      SassResult 0 (Some ("/* file */ " +:+ p +:+ " /*# sourceMappingURL=" +:+ m +:+ " */"))
                 None (Some ("{map:" +:+ m +:+ "}"))
  | CText p, _ => SassResult 0 (Some ("/* file */ " +:+ p)) None None
  | _, _ => SassResult 1 None (Some "no input") None
  end.

#[local] Instance sample_sass : SassInterface := {|
  sass_compile := sample_compile;
  sass_compile_file := sample_compile_file;
  sass_free_context a c :=
    option_to_list (output_string c) ++ option_to_list (error_message c) ++ [a];
  sass_free_file_context a c :=
    option_to_list (file_output_string c) ++ option_to_list (source_map_string c)
      ++ option_to_list (file_error_message c) ++ [a];
  sass_free_context_wrapper w :=
    option_to_list (output_string (ctx w)) ++ option_to_list (error_message (ctx w))
      ++ [ctx_addr w] ++ option_to_list (cb_addr <$> callback w)
      ++ option_to_list (cb_addr <$> errorCallback w) ++ [wrapper_addr w];
  sass_free_file_context_wrapper w :=
    option_to_list (file_output_string (file_ctx w))
      ++ option_to_list (source_map_string (file_ctx w))
      ++ option_to_list (file_error_message (file_ctx w))
      ++ [file_ctx_addr w] ++ option_to_list (cb_addr <$> file_callback w)
      ++ option_to_list (cb_addr <$> file_errorCallback w) ++ [file_wrapper_addr w]
|}.

Definition quiet (name : string) : js_function := JsFunction name (fun _ => false).
Definition raising (name : string) : js_function := JsFunction name (fun _ => true).
Definition good_host : host := Host 0 false.

(** A heap on which an earlier request has left a block. *)
Definition busy_heap : heap :=
  Heap 1 (<[0%nat := Block EngineString 6 (Some "a { }") 0]> ∅).

(** * Facts about the monad *)

Lemma wp_elim {A} (m : M A) h Q :
  wp m h Q → ∃ r, m h = Finished r ∧ Q (result r) (final r) (events r).
Proof. unfold wp. destruct (m h) as [r|]; [eauto | tauto]. Qed.

Lemma stops_elim {A} (m : M A) h Q :
  stops m h Q → ∃ f h' evs, m h = Stopped f h' evs ∧ Q f h' evs.
Proof. unfold stops. destruct (m h) as [r|f h' evs]; [tauto | eauto]. Qed.

Lemma stops_mono {A} (m : M A) h (Q Q' : fault → heap → list event → Prop) :
  stops m h Q → (∀ f h' evs, Q f h' evs → Q' f h' evs) → stops m h Q'.
Proof. unfold stops. destruct (m h); [tauto | eauto]. Qed.

Lemma wp_mono {A} (m : M A) h (Q Q' : A → heap → list event → Prop) :
  wp m h Q → (∀ a h' evs, Q a h' evs → Q' a h' evs) → wp m h Q'.
Proof. unfold wp. destruct (m h); [eauto | tauto]. Qed.

Lemma wp_ret {A} (a : A) h (Q : A → heap → list event → Prop) :
  Q a h [] → wp (ret a) h Q.
Proof. auto. Qed.

Lemma wp_bind {A B} (m : M A) (k : A → M B) h (Q : B → heap → list event → Prop) :
  wp m h (fun a h1 ev1 => wp (k a) h1 (fun b h2 ev2 => Q b h2 (ev1 ++ ev2))) →
  wp (bind m k) h Q.
Proof.
  unfold wp, bind. destruct (m h) as [r1|]; [|tauto].
  destruct (k (result r1) (final r1)) as [r2|]; [|tauto]. auto.
Qed.

Lemma wp_emit e h (Q : unit → heap → list event → Prop) :
  Q tt h [e] → wp (emit e) h Q.
Proof. auto. Qed.

Lemma wp_get_heap h (Q : heap → heap → list event → Prop) :
  Q h h [] → wp get_heap h Q.
Proof. auto. Qed.

Lemma wp_alloc o size d h (Q : nat → heap → list event → Prop) :
  Q (next h) (Heap (S (next h)) (<[next h := Block o size d 0%nat]> (blocks h))) [] →
  wp (alloc o size d) h Q.
Proof. auto. Qed.

Lemma wp_write l s h (Q : unit → heap → list event → Prop) :
  Q tt (Heap (next h) (alter (write_block s) l (blocks h))) [] → wp (write l s) h Q.
Proof. auto. Qed.

Lemma wp_release_Some l h (Q : unit → heap → list event → Prop) :
  live h l = true →
  Q tt (Heap (next h) (alter free_block l (blocks h))) [EvFree l] →
  wp (release (Some l)) h Q.
Proof. unfold wp, release. intros ->. auto. Qed.

Lemma wp_release_None h (Q : unit → heap → list event → Prop) :
  Q tt h [] → wp (release None) h Q.
Proof. auto. Qed.

Lemma release_all_run ls h :
  release_all ls h
  = Finished (Run tt (Heap (next h) (free_blocks ls (blocks h))) (map EvFree ls)).
Proof.
  revert h. induction ls as [|l ls IH]; intros [n m]; [reflexivity|].
  cbn [release_all]. unfold bind, engine_free. cbn [result final events next blocks].
  rewrite IH. reflexivity.
Qed.

Lemma wp_release_all ls h (Q : unit → heap → list event → Prop) :
  Q tt (Heap (next h) (free_blocks ls (blocks h))) (map EvFree ls) →
  wp (release_all ls) h Q.
Proof. unfold wp. rewrite release_all_run. auto. Qed.

Lemma wp_String_New p h s (Q : value → heap → list event → Prop) :
  deref h p = CText s → Q (VString s) h [] → wp (String_New p) h Q.
Proof. unfold wp, String_New, bind, get_heap. cbn. intros ->. auto. Qed.

Lemma wp_Call c s argv h (Q : bool → heap → list event → Prop) :
  Q (fn_throws (cb_function c) argv) h [EvCall s (cb_function c) argv] →
  wp (Call (Some c) s argv) h Q.
Proof. auto. Qed.

Lemma wp_FatalException_if (b : bool) h (Q : unit → heap → list event → Prop) :
  Q tt h (if b then [EvFatalException] else []) → wp (FatalException_if b) h Q.
Proof. destruct b; auto. Qed.

Lemma free_blocks_lookup_notin ls m l :
  l ∉ ls → free_blocks ls m !! l = m !! l.
Proof.
  revert m. induction ls as [|x ls IH]; intros m Hl; [reflexivity|].
  cbn [free_blocks]. rewrite IH by set_solver. apply lookup_alter_ne. set_solver.
Qed.

(** ** Runs that stop *)

Lemma stops_bind_run {A B} (m : M A) (k : A → M B) h
    (Q : fault → heap → list event → Prop) :
  wp m h (fun a h1 ev1 => stops (k a) h1 (fun f h2 ev2 => Q f h2 (ev1 ++ ev2))) →
  stops (bind m k) h Q.
Proof.
  unfold wp, stops, bind. destruct (m h) as [r1|]; [|tauto].
  destruct (k (result r1) (final r1)) as [r2|]; [tauto | auto].
Qed.

Lemma stops_bind_stop {A B} (m : M A) (k : A → M B) h
    (Q : fault → heap → list event → Prop) :
  stops m h Q → stops (bind m k) h Q.
Proof. unfold stops, bind. destruct (m h); [tauto | auto]. Qed.

Lemma stops_release l h (Q : fault → heap → list event → Prop) :
  live h l = false →
  Q (DoubleDelete l) (Heap (next h) (alter free_block l (blocks h))) [EvFree l] →
  stops (release (Some l)) h Q.
Proof. unfold stops, release. intros ->. auto. Qed.

(** No release brings a block back to life. *)
Lemma free_blocks_dead ls m l k :
  live (Heap k m) l = false → live (Heap k (free_blocks ls m)) l = false.
Proof.
  unfold live. cbn [blocks]. revert m.
  induction ls as [|x ls IH]; intros m Hl; [exact Hl|].
  cbn [free_blocks]. apply IH.
  destruct (decide (x = l)) as [->|Hx].
  - rewrite lookup_alter_eq. destruct (m !! l); reflexivity.
  - rewrite lookup_alter_ne by done. exact Hl.
Qed.

Lemma c_str_idemp s : c_str (c_str s) = c_str s.
Proof.
  induction s as [|c s IH]; [reflexivity|].
  cbn [c_str]. destruct (Ascii.eqb c Ascii.zero) eqn:E; [reflexivity|].
  cbn [c_str]. rewrite E, IH. reflexivity.
Qed.

Lemma assert_fails_true e : assert_fails e true = false.
Proof. unfold assert_fails. destruct (NDEBUG e); reflexivity. Qed.

(** ** Facts about logs *)

Lemma calls_nil : calls [] = [].
Proof. reflexivity. Qed.

Lemma calls_cons e evs :
  calls (e :: evs) = if is_call e then e :: calls evs else calls evs.
Proof. reflexivity. Qed.

Lemma calls_app evs1 evs2 : calls (evs1 ++ evs2) = calls evs1 ++ calls evs2.
Proof. apply List.filter_app. Qed.

Lemma calls_frees ls : calls (map EvFree ls) = [].
Proof. induction ls; [reflexivity | assumption]. Qed.

Lemma calls_fatal (b : bool) : calls (if b then [EvFatalException] else []) = [].
Proof. destruct b; reflexivity. Qed.

Lemma compile_requests_nil : compile_requests [] = [].
Proof. reflexivity. Qed.

Lemma compile_requests_cons e evs :
  compile_requests (e :: evs)
  = match as_compile e with
    | Some r => r :: compile_requests evs
    | None => compile_requests evs
    end.
Proof. reflexivity. Qed.

Lemma compile_requests_app evs1 evs2 :
  compile_requests (evs1 ++ evs2) = compile_requests evs1 ++ compile_requests evs2.
Proof. apply omap_app. Qed.

Lemma compile_requests_frees ls : compile_requests (map EvFree ls) = [].
Proof. induction ls; [reflexivity | assumption]. Qed.

Lemma compile_requests_fatal (b : bool) :
  compile_requests (if b then [EvFatalException] else []) = [].
Proof. destruct b; reflexivity. Qed.

Lemma compile_file_requests_nil : compile_file_requests [] = [].
Proof. reflexivity. Qed.

Lemma compile_file_requests_cons e evs :
  compile_file_requests (e :: evs)
  = match as_compile_file e with
    | Some r => r :: compile_file_requests evs
    | None => compile_file_requests evs
    end.
Proof. reflexivity. Qed.

Lemma compile_file_requests_app evs1 evs2 :
  compile_file_requests (evs1 ++ evs2)
  = compile_file_requests evs1 ++ compile_file_requests evs2.
Proof. apply omap_app. Qed.

Lemma compile_file_requests_frees ls : compile_file_requests (map EvFree ls) = [].
Proof. induction ls; [reflexivity | assumption]. Qed.

Lemma compile_file_requests_fatal (b : bool) :
  compile_file_requests (if b then [EvFatalException] else []) = [].
Proof. destruct b; reflexivity. Qed.

Create Rewrite HintDb log.
#[local] Hint Rewrite calls_nil calls_cons calls_app calls_frees calls_fatal
  compile_requests_nil compile_requests_cons compile_requests_app
  compile_requests_frees compile_requests_fatal
  compile_file_requests_nil compile_file_requests_cons compile_file_requests_app
  compile_file_requests_frees compile_file_requests_fatal
  : log.

Ltac log_norm :=
  autorewrite with log; cbn [is_call as_compile as_compile_file app].

(** ** Stepping through the binding *)

Ltac record_norm :=
  try unfold request_of, file_request_of;
  cbn [next blocks av_addr av_chars fst snd app
       set_source_string set_include_paths set_image_path set_output_style
       set_source_comments set_result zero_context zero_options
       set_input_path set_source_map_file set_file_include_paths set_file_image_path
       set_file_output_style set_file_source_comments set_file_result zero_file_context
       request_of file_request_of
       options include_paths image_path output_style source_comments source_string
       output_string error_status error_message
       input_path file_output_string source_map_string source_map_file file_options
       file_error_status file_error_message
       wrapper_addr ctx_addr ctx callback errorCallback
       file_wrapper_addr file_ctx_addr file_ctx file_callback file_errorCallback
       cb_addr cb_function
       res_error_status res_output_string res_error_message res_source_map_string].

Ltac record_norm_in H :=
  cbn [next blocks av_addr av_chars fst snd app
       options include_paths image_path output_style source_comments source_string
       output_string error_status error_message
       input_path file_output_string source_map_string source_map_file file_options
       file_error_status file_error_message
       wrapper_addr ctx_addr ctx callback errorCallback
       file_wrapper_addr file_ctx_addr file_ctx file_callback file_errorCallback
       cb_addr cb_function] in H.

Ltac lookup_norm :=
  repeat first
    [ rewrite lookup_insert_eq
    | rewrite lookup_alter_eq
    | rewrite lookup_insert_ne by lia
    | rewrite lookup_alter_ne by lia ];
  cbn [fmap option_fmap option_map free_block write_block b_origin b_size b_data b_frees].

Ltac deref_norm := unfold deref; record_norm; lookup_norm.

Ltac wp_step :=
  lazymatch goal with
  | |- wp (bind _ _) _ _ => apply wp_bind
  | |- wp (ret _) _ _ => apply wp_ret
  | |- wp (alloc _ _ _) _ _ => apply wp_alloc
  | |- wp (write _ _) _ _ => apply wp_write
  | |- wp (emit _) _ _ => apply wp_emit
  | |- wp get_heap _ _ => apply wp_get_heap
  | |- wp (release (Some _)) _ _ =>
      apply wp_release_Some; [unfold live; cbn [blocks]; lookup_norm; reflexivity|]
  | |- wp (release None) _ _ => apply wp_release_None
  | |- wp (release_all _) _ _ => apply wp_release_all
  | |- wp (FatalException_if _) _ _ => apply wp_FatalException_if
  | |- wp (Call (Some _) _ _) _ _ => apply wp_Call
  | |- wp (String_New _) _ _ =>
      eapply wp_String_New; [first [eassumption | deref_norm; reflexivity]|]
  | |- wp (new_AsciiValue _) _ _ => unfold new_AsciiValue
  | |- wp (new_char_array _) _ _ => unfold new_char_array
  | |- wp (new_NanCallback _) _ _ => unfold new_NanCallback
  | |- wp (delete_AsciiValue _) _ _ => unfold delete_AsciiValue
  | |- wp (strcpy _ _) _ _ => unfold strcpy
  | |- wp (engine_string (Some _)) _ _ => unfold engine_string
  | |- wp (engine_string None) _ _ => unfold engine_string
  | |- wp (call_sass_compile _) _ _ => unfold call_sass_compile
  | |- wp (call_sass_compile_file _) _ _ => unfold call_sass_compile_file
  | |- wp (WorkOnContext _) _ _ => unfold WorkOnContext
  | |- wp (WorkOnFileContext _) _ _ => unfold WorkOnFileContext
  | |- wp (work_cb _) _ _ => unfold work_cb
  | |- wp (after_work_cb _) _ _ => unfold after_work_cb
  | |- wp (MakeCallback _) _ _ => unfold MakeCallback
  | |- wp (MakeOldCallback _) _ _ => unfold MakeOldCallback
  | |- wp (MakeFileCallback _) _ _ => unfold MakeFileCallback
  | |- wp (if ?b then _ else _) _ _ =>
      match goal with H : b = _ |- _ => rewrite H end
  end; record_norm.

(** The same for a run that is going to stop: its steps up to there. *)
Ltac stops_step :=
  lazymatch goal with
  | |- stops (bind (delete_AsciiValue _) _) _ _ => fail
  | |- stops (bind _ _) _ _ => apply stops_bind_run
  | |- stops (if ?b then _ else _) _ _ =>
      match goal with H : b = _ |- _ => rewrite H end
  end; record_norm.

Ltac run_step := first [wp_step | stops_step].

(** Unfold an asynchronous entry point whose submission succeeds. *)
Ltac enter_async He :=
  unfold run_to_completion, OldRender, Render, RenderFile, uv_queue_work;
  rewrite He; cbn [Z.eqb]; rewrite assert_fails_true.

Section Facts.
Context `{Sass : SassInterface}.

(** The derefs of a request are computed once the heap is explicit. *)
Ltac request_norm :=
  repeat match goal with
  | |- context [deref (Heap ?k ?m) ?p] =>
      let d := fresh "d" in let Hd := fresh "Hd" in
      remember (deref (Heap k m) p) as d eqn:Hd;
      revert Hd; deref_norm; intros ->
  end;
  rewrite ?c_str_idemp.

(** Case analysis on what libsass answered, keeping only the answers its
    contract allows. *)
Ltac engine_cases :=
  let Hr := fresh "Hr" in
  let Hm := fresh "Hm" in
  let st := fresh "st" in
  let Est := fresh "Est" in
  lazymatch goal with
  | |- context [sass_compile ?r] =>
      pose proof (compile_ok r) as Hr; unfold result_ok in Hr;
      destruct (sass_compile r) as [st [?out|] [?msg|] ?mp]
  | |- context [sass_compile_file ?r] =>
      pose proof (compile_file_ok r) as Hr; unfold result_ok in Hr;
      pose proof (compile_file_map_ok r) as Hm; unfold map_ok in Hm;
      destruct (sass_compile_file r) as [st [?out|] [?msg|] [?mp|]]
  end;
  cbn [res_error_status res_output_string res_error_message res_source_map_string
       freq_source_comments freq_source_map_file] in *;
  destruct (st =? 0) eqn:Est;
  try (destruct Hr as [? Hr]; discriminate Hr);
  record_norm.

Ltac finish_log :=
  unfold modern_call, modern_file_call, legacy_call, text_of;
  cbn [res_error_status res_output_string res_error_message res_source_map_string default];
  repeat match goal with H : (_ =? _) = _ |- _ => rewrite H end;
  log_norm; rewrite ?c_str_idemp; auto.

Lemma Render_log source cb ecb inc style comments e h :
  uv_queue_work_status e = 0 →
  SassContract Sass →
  wp (run_to_completion (Render source cb ecb inc style comments e)) h
     (fun r _ evs =>
        r = ReturnValue VUndefined ∧
        compile_requests evs = [async_request source style comments] ∧
        calls evs = [modern_call cb ecb (sass_compile (async_request source style comments))]).
Proof.
  intros He Hok. destruct h as [n m]. enter_async He.
  repeat wp_step. request_norm.
  change (SassRequest _ _ _ _ _) with (async_request source style comments).
  engine_cases; repeat wp_step; finish_log.
Qed.

Lemma OldRender_log source cb inc style comments e h :
  uv_queue_work_status e = 0 →
  SassContract Sass →
  wp (run_to_completion (OldRender source cb inc style comments e)) h
     (fun r _ evs =>
        r = ReturnValue VUndefined ∧
        compile_requests evs = [async_request source style comments] ∧
        calls evs = [legacy_call cb (sass_compile (async_request source style comments))]).
Proof.
  intros He Hok. destruct h as [n m]. enter_async He.
  repeat wp_step. request_norm.
  change (SassRequest _ _ _ _ _) with (async_request source style comments).
  engine_cases; repeat wp_step; finish_log.
Qed.

(** The destructor of the second [String::AsciiValue] of a synchronous
    variant finds its buffer released already. *)
Ltac stop_at_destructor :=
  apply stops_bind_stop; unfold delete_AsciiValue; record_norm;
  apply stops_release;
  [ apply free_blocks_dead; unfold live; cbn [blocks]; lookup_norm; reflexivity
  | record_norm ].

Lemma RenderSync_log source inc style comments h :
  SassContract Sass →
  stops (RenderSync source inc style comments) h
     (fun f _ evs =>
        f = DoubleDelete (2 + next h) ∧
        compile_requests evs = [sync_request source inc style comments] ∧
        calls evs = []).
Proof.
  intros Hok. destruct h as [n m]. unfold RenderSync.
  repeat run_step. request_norm.
  change (SassRequest _ _ _ _ _) with (sync_request source inc style comments).
  engine_cases; repeat run_step; stop_at_destructor; finish_log.
Qed.

Lemma RenderFile_log path cb ecb inc style comments mapPath e h :
  uv_queue_work_status e = 0 →
  SassContract Sass →
  wp (run_to_completion (RenderFile path cb ecb inc style comments mapPath e)) h
     (fun r _ evs =>
        r = ReturnValue VUndefined ∧
        compile_file_requests evs = [async_file_request path style comments mapPath] ∧
        calls evs =
          [modern_file_call cb ecb comments
             (sass_compile_file (async_file_request path style comments mapPath))]).
Proof.
  intros He Hok. destruct h as [n m]. enter_async He.
  unfold async_file_request, modern_file_call.
  generalize (Int32Value comments) (Int32Value style). intros c32 s32.
  destruct (c32 =? SASS_SOURCE_COMMENTS_MAP) eqn:Emap.
  all: repeat wp_step; request_norm.
  all: engine_cases.
  all: try (exfalso; apply Z.eqb_eq in Est; apply Z.eqb_eq in Emap;
            destruct (Hm Est Emap (ex_intro _ _ eq_refl)) as [? HN];
            discriminate HN).
  all: repeat wp_step; finish_log.
Qed.

Lemma RenderFileSync_log path inc style comments h :
  SassContract Sass →
  stops (RenderFileSync path inc style comments) h
     (fun f _ evs =>
        f = DoubleDelete (2 + next h) ∧
        compile_file_requests evs = [sync_file_request path inc style comments] ∧
        calls evs = []).
Proof.
  intros Hok. destruct h as [n m]. unfold RenderFileSync.
  repeat run_step. request_norm.
  change (SassFileRequest _ _ _ _ _ _) with (sync_file_request path inc style comments).
  engine_cases; repeat run_step; stop_at_destructor; finish_log.
Qed.

(** ** Ownership of the include-path buffers *)

(** An address is none of the pointers listed. *)
Ltac not_listed Hin :=
  unfold wrapper_pointers, file_wrapper_pointers, context_pointers,
    file_context_pointers in Hin;
  record_norm_in Hin;
  cbn [option_to_list app fmap option_fmap option_map cb_addr] in Hin;
  repeat (apply elem_of_cons in Hin as [Hin|Hin]; [lia|]);
  by apply elem_of_nil in Hin.

(** C5 (fails on the code).  When [Render] returns, the source text is an
  owned copy, but the include paths are not: the context's
  [include_paths] field holds the address of the buffer inside the
  caller-side [String::AsciiValue], which has been released by then, so the
  field dangles.  The buffer allocated for the copy is never written and
  nothing points to it. *)
Theorem Render_include_paths_alias_caller_buffer source cb ecb inc style comments e h :
  uv_queue_work_status e = 0 →
  wp (Render source cb ecb inc style comments e) h (fun r h' _ =>
    ∃ w, r = (ReturnValue VUndefined, Some (RenderWork w)) ∧
      source_string (ctx w) = Some (4 + next h)%nat ∧
      blocks h' !! (4 + next h)%nat
        = Some (Block NewCharArray (strlen source + 1) (Some (c_str source)) 0) ∧
      include_paths (options (ctx w)) = Some (3 + next h)%nat ∧
      blocks h' !! (3 + next h)%nat
        = Some (Block AsciiValueBuffer (String.length inc + 1) (Some inc) 1) ∧
      deref h' (include_paths (options (ctx w))) = CDangling ∧
      blocks h' !! (5 + next h)%nat
        = Some (Block NewCharArray (strlen inc + 1) None 0) ∧
      (5 + next h)%nat ∉ wrapper_pointers w).
Proof.
  intros He. destruct h as [n m]. enter_async He.
  repeat wp_step. eexists. split; [reflexivity|].
  record_norm. cbn [Nat.add]. deref_norm.
  repeat split.
  intros Hin. not_listed Hin.
Qed.

(** C2 (fails on the code).  From [Render] to the end of [MakeCallback]: the
  callback is invoked, a raising callback is passed to
  [node::FatalException], and the release step follows in either case; yet
  the buffer allocated for the include-path copy is still allocated at the
  end, for every release function that frees only what the wrapper points
  to. *)
Theorem Render_never_releases_include_paths_copy source cb ecb inc style comments e h :
  uv_queue_work_status e = 0 →
  SassContract Sass →
  SassFreesReachable Sass →
  wp (run_to_completion (Render source cb ecb inc style comments e)) h
     (fun _ h' evs =>
        (∃ s f argv w,
            evs = [EvFree (3 + next h)%nat; EvFree (2 + next h)%nat;
                   EvCompile (async_request source style comments);
                   EvCall s f argv]
                  ++ (if fn_throws f argv then [EvFatalException] else [])
                  ++ EvFree (4 + next h)%nat
                     :: map EvFree (sass_free_context_wrapper w)) ∧
        blocks h' !! (5 + next h)%nat
          = Some (Block NewCharArray (strlen inc + 1) None 0)).
Proof.
  intros He Hok Hreach. destruct h as [n m]. enter_async He.
  repeat wp_step. request_norm.
  change (SassRequest _ _ _ _ _) with (async_request source style comments).
  engine_cases; repeat wp_step.
  all: cbn [Nat.add]; rewrite ?app_nil_r.
  all: split; [do 4 eexists; reflexivity|].
  all: rewrite free_blocks_lookup_notin;
    [ lookup_norm; reflexivity
    | intros Hin; apply free_context_wrapper_reachable in Hin; not_listed Hin ].
Qed.

(** C3 (fails on the code).  [RenderSync] gets to neither a return nor a
  raise with its buffers in order: the buffer of the caller-side
  [String::AsciiValue] is released by [delete ctx->options.include_paths]
  and then a second time by its own destructor, where the run stops, and
  the buffer allocated for the include-path copy has not been released. *)
Theorem RenderSync_leaks_copy_and_frees_caller_buffer_twice source inc style comments h :
  SassContract Sass →
  SassFreesReachable Sass →
  stops (RenderSync source inc style comments) h
     (fun f h' _ =>
        f = DoubleDelete (2 + next h) ∧
        blocks h' !! (4 + next h)%nat
          = Some (Block NewCharArray (strlen inc + 1) None 0) ∧
        blocks h' !! (2 + next h)%nat
          = Some (Block AsciiValueBuffer (String.length inc + 1) (Some inc) 2)).
Proof.
  intros Hok Hreach. destruct h as [n m]. unfold RenderSync.
  repeat run_step. request_norm.
  engine_cases; repeat run_step; stop_at_destructor.
  all: cbn [Nat.add].
  all: split; [reflexivity|]; split; lookup_norm.
  all: rewrite free_blocks_lookup_notin;
    [ lookup_norm; reflexivity
    | intros Hin; apply free_context_reachable in Hin; not_listed Hin ].
Qed.

(** ** Callback conventions *)

Lemma modern_call_shape cb ecb res :
  ∃ argv, modern_call cb ecb res
          = if res_error_status res =? 0 then EvCall CallbackSlot cb argv
            else EvCall ErrorCallbackSlot ecb argv.
Proof. unfold modern_call. destruct (_ =? 0); eauto. Qed.

Lemma modern_file_call_shape cb ecb comments res :
  ∃ argv, modern_file_call cb ecb comments res
          = if res_error_status res =? 0 then EvCall CallbackSlot cb argv
            else EvCall ErrorCallbackSlot ecb argv.
Proof. unfold modern_file_call. destruct (_ =? 0); eauto. Qed.

(** C1.  Every asynchronous request whose submission succeeded ends with
  exactly one callback invocation: for [Render] and [RenderFile] the success
  callback when libsass reported status 0 and the error callback otherwise,
  for [OldRender] the single callback. *)
Theorem exactly_one_callback_per_request e h :
  uv_queue_work_status e = 0 →
  SassContract Sass →
  (∀ source cb ecb inc style comments,
      wp (run_to_completion (Render source cb ecb inc style comments e)) h
         (fun _ _ evs =>
            ∃ argv,
              calls evs =
                [if res_error_status (sass_compile (async_request source style comments)) =? 0
                 then EvCall CallbackSlot cb argv
                 else EvCall ErrorCallbackSlot ecb argv])) ∧
  (∀ path cb ecb inc style comments mapPath,
      wp (run_to_completion (RenderFile path cb ecb inc style comments mapPath e)) h
         (fun _ _ evs =>
            ∃ argv,
              calls evs =
                [if res_error_status
                      (sass_compile_file (async_file_request path style comments mapPath)) =? 0
                 then EvCall CallbackSlot cb argv
                 else EvCall ErrorCallbackSlot ecb argv])) ∧
  (∀ source cb inc style comments,
      wp (run_to_completion (OldRender source cb inc style comments e)) h
         (fun _ _ evs => ∃ argv, calls evs = [EvCall CallbackSlot cb argv])).
Proof.
  intros He Hok. split; [|split]; intros.
  - eapply wp_mono; [by apply Render_log|]. intros _ _ evs (_ & _ & ->).
    destruct (modern_call_shape cb ecb (sass_compile (async_request source style comments)))
      as [argv ->]. eauto.
  - eapply wp_mono; [by apply RenderFile_log|]. intros _ _ evs (_ & _ & ->).
    destruct (modern_file_call_shape cb ecb comments
                (sass_compile_file (async_file_request path style comments mapPath)))
      as [argv ->]. eauto.
  - eapply wp_mono; [by apply OldRender_log|]. intros _ _ evs (_ & _ & ->).
    unfold legacy_call. destruct (_ =? 0); eauto.
Qed.

(** C4.  [OldRender] invokes its callback with [null] and the output text
  on success, and with the error message alone on failure, so that the
  result parameter reads [undefined] there. *)
Theorem OldRender_callback_arguments source cb inc style comments e h :
  uv_queue_work_status e = 0 →
  SassContract Sass →
  wp (run_to_completion (OldRender source cb inc style comments e)) h
     (fun _ _ evs =>
        let res := sass_compile (async_request source style comments) in
        ∃ argv,
          calls evs = [EvCall CallbackSlot cb argv] ∧
          if res_error_status res =? 0
          then argv = [VNull; VString (text_of (res_output_string res))] ∧
               argument argv 0 = VNull ∧
               argument argv 1 = VString (text_of (res_output_string res))
          else argv = [VString (text_of (res_error_message res))] ∧
               argument argv 0 = VString (text_of (res_error_message res)) ∧
               argument argv 1 = VUndefined).
Proof.
  intros He Hok. eapply wp_mono; [by apply OldRender_log|].
  intros _ _ evs (_ & _ & ->). cbv zeta. unfold legacy_call.
  destruct (_ =? 0); eexists; (split; [reflexivity|]); repeat split.
Qed.

(** ** Source maps *)


(** ** Asynchronous against synchronous *)

Lemma outcome_of_modern_call cb ecb res :
  async_outcome [modern_call cb ecb res] = Some (answer_outcome res).
Proof. unfold modern_call, answer_outcome. by destruct (_ =? 0). Qed.

Lemma outcome_of_modern_file_call cb ecb comments res :
  async_outcome [modern_file_call cb ecb comments res] = Some (answer_outcome res).
Proof. unfold modern_file_call, answer_outcome. by destruct (_ =? 0). Qed.

(** C7 (amended).  The asynchronous and the synchronous variant of a source
  kind hand libsass the same source text or input path, image path, output
  style and comment mode; [RenderFileSync] never hands over a map path
  while [RenderFile] does so exactly in map mode.  The asynchronous variant
  delivers what libsass answered to its request, which is what libsass
  answers to the synchronous variant's request whenever it answers the two
  alike. *)
Theorem async_and_sync_agree_apart_from_include_paths_and_map source cb ecb inc
    style comments mapPath e h :
  uv_queue_work_status e = 0 →
  SassContract Sass →
  let qa := async_request source style comments in
  let qs := sync_request source inc style comments in
  let fa := async_file_request source style comments mapPath in
  let fs := sync_file_request source inc style comments in
  (req_source_string qa = req_source_string qs ∧
   req_image_path qa = req_image_path qs ∧
   req_output_style qa = req_output_style qs ∧
   req_source_comments qa = req_source_comments qs) ∧
  (freq_input_path fa = freq_input_path fs ∧
   freq_image_path fa = freq_image_path fs ∧
   freq_output_style fa = freq_output_style fs ∧
   freq_source_comments fa = freq_source_comments fs ∧
   freq_source_map_file fs = CNull ∧
   (Int32Value comments ≠ SASS_SOURCE_COMMENTS_MAP →
    freq_source_map_file fa = freq_source_map_file fs) ∧
   (Int32Value comments = SASS_SOURCE_COMMENTS_MAP →
    freq_source_map_file fa = CText (c_str mapPath))) ∧
  wp (run_to_completion (Render source cb ecb inc style comments e)) h
     (fun _ _ evs_a =>
        stops (RenderSync source inc style comments) h
           (fun _ _ evs_s =>
              compile_requests evs_a = [qa] ∧ compile_requests evs_s = [qs] ∧
              async_outcome (calls evs_a) = Some (answer_outcome (sass_compile qa)) ∧
              (sass_compile qa = sass_compile qs →
               async_outcome (calls evs_a) = Some (answer_outcome (sass_compile qs))))) ∧
  wp (run_to_completion (RenderFile source cb ecb inc style comments mapPath e)) h
     (fun _ _ evs_a =>
        stops (RenderFileSync source inc style comments) h
           (fun _ _ evs_s =>
              compile_file_requests evs_a = [fa] ∧ compile_file_requests evs_s = [fs] ∧
              async_outcome (calls evs_a) = Some (answer_outcome (sass_compile_file fa)) ∧
              (sass_compile_file fa = sass_compile_file fs →
               async_outcome (calls evs_a)
               = Some (answer_outcome (sass_compile_file fs))))).
Proof.
  intros He Hok qa qs fa fs. split; [|split; [|split]].
  - by repeat split.
  - subst fa fs. unfold async_file_request. cbn [freq_source_map_file].
    do 5 (split; [reflexivity|]). split; intros Hmap.
    + apply Z.eqb_neq in Hmap. by rewrite Hmap.
    + apply Z.eqb_eq in Hmap. by rewrite Hmap.
  - eapply wp_mono; [by apply Render_log|]. intros _ _ evs_a (_ & -> & ->).
    eapply stops_mono; [by apply RenderSync_log|]. intros f _ evs_s (_ & -> & _).
    do 2 (split; [reflexivity|]).
    split; [apply outcome_of_modern_call|].
    subst qa qs. intros <-. apply outcome_of_modern_call.
  - eapply wp_mono; [by apply RenderFile_log|]. intros _ _ evs_a (_ & -> & ->).
    eapply stops_mono; [by apply RenderFileSync_log|]. intros f _ evs_s (_ & -> & _).
    do 2 (split; [reflexivity|]).
    split; [apply outcome_of_modern_file_call|].
    subst fa fs. intros <-. apply outcome_of_modern_file_call.
Qed.

(** ** Failed submission *)

(** Unfold an asynchronous entry point whose submission fails. *)
Ltac enter_failed e He :=
  let st := fresh "st" in
  let nd := fresh "nd" in
  destruct e as [st nd]; cbn [uv_queue_work_status NDEBUG] in *;
  unfold run_to_completion, OldRender, Render, RenderFile, uv_queue_work, assert_fails;
  cbn [uv_queue_work_status NDEBUG];
  apply Z.eqb_neq in He; rewrite He;
  destruct nd; cbn [negb andb].

(** C8 (amended).  When [uv_queue_work] answers a non-zero status, no
  callback is invoked, nothing is raised and libsass is never called: the
  entry point fails its assertion, or returns [undefined] where [assert]
  is compiled out. *)
Theorem failed_submission_aborts_or_is_dropped e h :
  uv_queue_work_status e ≠ 0 →
  let answer := if NDEBUG e then ReturnValue VUndefined else AssertionFailed in
  (∀ source cb ecb inc style comments,
      wp (run_to_completion (Render source cb ecb inc style comments e)) h
         (fun r _ evs => r = answer ∧ calls evs = [] ∧ compile_requests evs = [])) ∧
  (∀ source cb inc style comments,
      wp (run_to_completion (OldRender source cb inc style comments e)) h
         (fun r _ evs => r = answer ∧ calls evs = [] ∧ compile_requests evs = [])) ∧
  (∀ path cb ecb inc style comments mapPath,
      wp (run_to_completion (RenderFile path cb ecb inc style comments mapPath e)) h
         (fun r _ evs => r = answer ∧ calls evs = [] ∧ compile_file_requests evs = [])).
Proof.
  intros He answer. subst answer. destruct h as [n m].
  split; [|split]; intros.
  - enter_failed e He; repeat wp_step; by log_norm.
  - enter_failed e He; repeat wp_step; by log_norm.
  - enter_failed e He.
    all: generalize (Int32Value comments) (Int32Value style); intros c32 s32.
    all: destruct (c32 =? SASS_SOURCE_COMMENTS_MAP) eqn:Emap.
    all: repeat wp_step; by log_norm.
Qed.

(** ** Enumeration arguments *)

Lemma Int32Value_in_range z :
  -2147483648 ≤ z < 2147483648 → Int32Value z = z.
Proof. intros Hz. unfold Int32Value. rewrite Z.mod_small by lia. lia. Qed.

(** C9 (amended).  For every integer passed as output style or comment
  mode, each of the five entry points stores the 32-bit value of the
  argument, which is the argument itself whenever that fits 32 bits, and
  that value is what libsass is handed: no validation, rejection or
  clamping.  The asynchronous entry points return [undefined] whatever the
  value. *)
Theorem enumeration_arguments_are_stored_unvalidated style comments e h :
  uv_queue_work_status e = 0 →
  SassContract Sass →
  let handed (evs : list event) :=
    req_output_style <$> compile_requests evs = [Int32Value style] ∧
    req_source_comments <$> compile_requests evs = [Int32Value comments] in
  let file_handed (evs : list event) :=
    freq_output_style <$> compile_file_requests evs = [Int32Value style] ∧
    freq_source_comments <$> compile_file_requests evs = [Int32Value comments] in
  (∀ source cb ecb inc,
      wp (Render source cb ecb inc style comments e) h
         (fun r _ _ =>
            ∃ w, r = (ReturnValue VUndefined, Some (RenderWork w)) ∧
                 output_style (options (ctx w)) = Int32Value style ∧
                 source_comments (options (ctx w)) = Int32Value comments) ∧
      wp (run_to_completion (Render source cb ecb inc style comments e)) h
         (fun r _ evs => r = ReturnValue VUndefined ∧ handed evs)) ∧
  (∀ source cb inc,
      wp (OldRender source cb inc style comments e) h
         (fun r _ _ =>
            ∃ w, r = (ReturnValue VUndefined, Some (OldRenderWork w)) ∧
                 output_style (options (ctx w)) = Int32Value style ∧
                 source_comments (options (ctx w)) = Int32Value comments) ∧
      wp (run_to_completion (OldRender source cb inc style comments e)) h
         (fun r _ evs => r = ReturnValue VUndefined ∧ handed evs)) ∧
  (∀ path cb ecb inc mapPath,
      wp (RenderFile path cb ecb inc style comments mapPath e) h
         (fun r _ _ =>
            ∃ w, r = (ReturnValue VUndefined, Some (RenderFileWork w)) ∧
                 output_style (file_options (file_ctx w)) = Int32Value style ∧
                 source_comments (file_options (file_ctx w)) = Int32Value comments) ∧
      wp (run_to_completion (RenderFile path cb ecb inc style comments mapPath e)) h
         (fun r _ evs => r = ReturnValue VUndefined ∧ file_handed evs)) ∧
  (∀ source inc,
      stops (RenderSync source inc style comments) h (fun _ _ evs => handed evs)) ∧
  (∀ path inc,
      stops (RenderFileSync path inc style comments) h (fun _ _ evs => file_handed evs)) ∧
  (-2147483648 ≤ style < 2147483648 → Int32Value style = style) ∧
  (-2147483648 ≤ comments < 2147483648 → Int32Value comments = comments).
Proof.
  intros He Hok handed file_handed. subst handed file_handed. destruct h as [n m].
  split; [|split; [|split; [|split; [|split; [|split; apply Int32Value_in_range]]]]];
    intros.
  - split.
    + enter_async He. repeat wp_step. by eexists.
    + eapply wp_mono; [by apply Render_log|]. by intros r _ evs (-> & -> & _).
  - split.
    + enter_async He. repeat wp_step. by eexists.
    + eapply wp_mono; [by apply OldRender_log|]. by intros r _ evs (-> & -> & _).
  - split.
    + enter_async He.
      generalize (Int32Value comments) (Int32Value style). intros c32 s32.
      destruct (c32 =? SASS_SOURCE_COMMENTS_MAP) eqn:Emap.
      all: repeat wp_step; by eexists.
    + eapply wp_mono; [by apply RenderFile_log|]. by intros r _ evs (-> & -> & _).
  - eapply stops_mono; [by apply RenderSync_log|]. by intros f _ evs (_ & -> & _).
  - eapply stops_mono; [by apply RenderFileSync_log|]. by intros f _ evs (_ & -> & _).
Qed.

(** ** The source-map path outside map mode *)

(** ** Further facts: what the callbacks and the callers receive *)


(** X2.  Under the modern convention the success callback of [Render]
    receives one argument, the output text; the error callbacks of [Render]
    and of [RenderFile] receive one argument, the error message, whatever the
    comment mode. *)
Theorem modern_callback_arguments source cb ecb inc style comments mapPath e h :
  uv_queue_work_status e = 0 →
  SassContract Sass →
  let res := sass_compile (async_request source style comments) in
  let fres := sass_compile_file (async_file_request source style comments mapPath) in
  wp (run_to_completion (Render source cb ecb inc style comments e)) h
     (fun _ _ evs =>
        (res_error_status res = 0 →
         calls evs = [EvCall CallbackSlot cb [VString (text_of (res_output_string res))]]) ∧
        (res_error_status res ≠ 0 →
         calls evs
         = [EvCall ErrorCallbackSlot ecb [VString (text_of (res_error_message res))]])) ∧
  wp (run_to_completion (RenderFile source cb ecb inc style comments mapPath e)) h
     (fun _ _ evs =>
        res_error_status fres ≠ 0 →
        calls evs
        = [EvCall ErrorCallbackSlot ecb [VString (text_of (res_error_message fres))]]).
Proof.
  intros He Hok res fres. split.
  - eapply wp_mono; [by apply Render_log|]. intros r h' evs (_ & _ & ->).
    fold res. unfold modern_call. split; intros Hst.
    + apply Z.eqb_eq in Hst. by rewrite Hst.
    + apply Z.eqb_neq in Hst. by rewrite Hst.
  - eapply wp_mono; [by apply RenderFile_log|]. intros r h' evs (_ & _ & ->) Hst.
    fold fres. unfold modern_file_call. apply Z.eqb_neq in Hst. by rewrite Hst.
Qed.
(** ** Further facts: buffers, schedules and edge cases *)

(** X3.  [RenderFileSync] stops in the destructor of the second
    [String::AsciiValue]: its buffer, released by
    [delete ctx->options.include_paths] before, is released a second time,
    and the buffer allocated for the include-path copy has not been
    released. *)
Theorem RenderFileSync_leaks_copy_and_frees_caller_buffer_twice path inc style comments h :
  SassContract Sass →
  SassFreesReachable Sass →
  stops (RenderFileSync path inc style comments) h
     (fun f h' _ =>
        f = DoubleDelete (2 + next h) ∧
        blocks h' !! (4 + next h)%nat
          = Some (Block NewCharArray (strlen inc + 1) None 0) ∧
        blocks h' !! (2 + next h)%nat
          = Some (Block AsciiValueBuffer (String.length inc + 1) (Some inc) 2)).
Proof.
  intros Hok Hreach. destruct h as [n m]. unfold RenderFileSync.
  repeat run_step. request_norm.
  engine_cases; repeat run_step; stop_at_destructor.
  all: cbn [Nat.add].
  all: split; [reflexivity|]; split; lookup_norm.
  all: rewrite free_blocks_lookup_notin;
    [ lookup_norm; reflexivity
    | intros Hin; apply free_file_context_reachable in Hin; not_listed Hin ].
Qed.


(** Unfold an asynchronous entry point alone, its submission succeeding. *)
Ltac enter_alone He :=
  unfold OldRender, Render, RenderFile, uv_queue_work;
  rewrite He; cbn [Z.eqb]; rewrite assert_fails_true.

(** X5.  [OldRender], then [WorkOnContext] on the wrapper it queued, then
    [MakeOldCallback] on the wrapper the worker leaves: the callback is
    invoked once, [node::FatalException] is called exactly when that call
    raised, and in either case the source copy and then that very wrapper
    are released; the buffer allocated for the include-path copy is never
    released. *)
Theorem OldRender_escalates_then_releases_but_leaks_copy source cb inc style comments e h :
  uv_queue_work_status e = 0 →
  SassContract Sass →
  SassFreesReachable Sass →
  wp (OldRender source cb inc style comments e) h
     (fun r h1 evs1 =>
        ∃ w, r = (ReturnValue VUndefined, Some (OldRenderWork w)) ∧
          evs1 = [EvFree (3 + next h)%nat; EvFree (2 + next h)%nat] ∧
          wp (WorkOnContext w) h1
             (fun w' h2 evs2 =>
                evs2 = [EvCompile (async_request source style comments)] ∧
                source_string (ctx w') = Some (4 + next h)%nat ∧
                wp (MakeOldCallback w') h2
                   (fun _ h3 evs3 =>
                      (∃ argv,
                          legacy_call cb (sass_compile (async_request source style comments))
                          = EvCall CallbackSlot cb argv ∧
                          evs3 = EvCall CallbackSlot cb argv
                                 :: (if fn_throws cb argv then [EvFatalException] else [])
                                 ++ EvFree (4 + next h)%nat
                                    :: map EvFree (sass_free_context_wrapper w')) ∧
                      blocks h3 !! (5 + next h)%nat
                        = Some (Block NewCharArray (strlen inc + 1) None 0)))).
Proof.
  intros He Hok Hreach. destruct h as [n m]. enter_alone He.
  repeat wp_step. eexists. do 2 (split; [reflexivity|]).
  repeat wp_step. request_norm.
  change (SassRequest _ _ _ _ _) with (async_request source style comments).
  engine_cases; repeat wp_step.
  all: do 2 (split; [reflexivity|]).
  all: repeat wp_step.
  all: cbn [Nat.add]; rewrite ?app_nil_r.
  all: split;
    [ eexists; split; [|reflexivity]; unfold legacy_call, text_of;
      cbn [res_error_status res_output_string res_error_message default];
      rewrite Est, ?c_str_idemp; reflexivity |].
  all: rewrite free_blocks_lookup_notin;
    [ lookup_norm; reflexivity
    | intros Hin; apply free_context_wrapper_reachable in Hin; not_listed Hin ].
Qed.

(** X6.  [RenderFile], then [WorkOnFileContext] on the wrapper it queued,
    then [MakeFileCallback] on the wrapper the worker leaves: one callback is
    invoked, [node::FatalException] is called exactly when that call raised,
    and in either case the input-path copy and then that very wrapper are
    released; the buffer allocated for the include-path copy is never
    released. *)
Theorem RenderFile_escalates_then_releases_but_leaks_copy path cb ecb inc style comments
    mapPath e h :
  uv_queue_work_status e = 0 →
  SassContract Sass →
  SassFreesReachable Sass →
  let req := async_file_request path style comments mapPath in
  wp (RenderFile path cb ecb inc style comments mapPath e) h
     (fun r h1 evs1 =>
        ∃ w, r = (ReturnValue VUndefined, Some (RenderFileWork w)) ∧
          evs1 = [EvFree (4 + next h)%nat; EvFree (3 + next h)%nat;
                  EvFree (2 + next h)%nat] ∧
          wp (WorkOnFileContext w) h1
             (fun w' h2 evs2 =>
                evs2 = [EvCompileFile req] ∧
                input_path (file_ctx w') = Some (5 + next h)%nat ∧
                wp (MakeFileCallback w') h2
                   (fun _ h3 evs3 =>
                      (∃ s f argv,
                          modern_file_call cb ecb comments (sass_compile_file req)
                          = EvCall s f argv ∧
                          evs3 = EvCall s f argv
                                 :: (if fn_throws f argv then [EvFatalException] else [])
                                 ++ EvFree (5 + next h)%nat
                                    :: map EvFree (sass_free_file_context_wrapper w')) ∧
                      blocks h3 !! (6 + next h)%nat
                        = Some (Block NewCharArray (strlen inc + 1) None 0)))).
Proof.
  intros He Hok Hreach req. subst req. destruct h as [n m]. enter_alone He.
  unfold async_file_request, modern_file_call.
  generalize (Int32Value comments) (Int32Value style). intros c32 s32.
  destruct (c32 =? SASS_SOURCE_COMMENTS_MAP) eqn:Emap.
  all: repeat wp_step; eexists; do 2 (split; [reflexivity|]).
  all: repeat wp_step; request_norm.
  all: engine_cases.
  all: try (exfalso; apply Z.eqb_eq in Est; apply Z.eqb_eq in Emap;
            destruct (Hm Est Emap (ex_intro _ _ eq_refl)) as [? HN];
            discriminate HN).
  all: repeat wp_step.
  all: do 2 (split; [reflexivity|]).
  all: repeat wp_step.
  all: cbn [Nat.add]; rewrite ?app_nil_r.
  all: split;
    [ do 3 eexists; split; [|reflexivity]; unfold text_of;
      cbn [res_error_status res_output_string res_error_message
           res_source_map_string default];
      rewrite ?c_str_idemp; reflexivity |].
  all: rewrite free_blocks_lookup_notin;
    [ lookup_norm; reflexivity
    | intros Hin; apply free_file_context_wrapper_reachable in Hin; not_listed Hin ].
Qed.

(** X7.  [RenderFile] copies the input path, cut at its first NUL, into a
    buffer one byte longer than the copy; in map mode it does the same for
    the source-map path, and in any other mode the context's
    [source_map_file] stays NULL. *)
Theorem RenderFile_copies_fit_their_buffers path cb ecb inc style comments mapPath e h :
  uv_queue_work_status e = 0 →
  wp (RenderFile path cb ecb inc style comments mapPath e) h
     (fun r h' _ =>
        ∃ w, r = (ReturnValue VUndefined, Some (RenderFileWork w)) ∧
          input_path (file_ctx w) = Some (5 + next h)%nat ∧
          blocks h' !! (5 + next h)%nat
            = Some (Block NewCharArray (String.length (c_str path) + 1)
                          (Some (c_str path)) 0) ∧
          if Int32Value comments =? SASS_SOURCE_COMMENTS_MAP
          then source_map_file (file_ctx w) = Some (8 + next h)%nat ∧
               blocks h' !! (8 + next h)%nat
                 = Some (Block NewCharArray (String.length (c_str mapPath) + 1)
                               (Some (c_str mapPath)) 0)
          else source_map_file (file_ctx w) = None).
Proof.
  intros He. destruct h as [n m]. enter_async He.
  generalize (Int32Value comments) (Int32Value style). intros c32 s32.
  destruct (c32 =? SASS_SOURCE_COMMENTS_MAP) eqn:Emap.
  all: repeat wp_step; eexists; split; [reflexivity|].
  all: record_norm; cbn [Nat.add]; lookup_norm; by repeat split.
Qed.

Ltac older_blocks Hreach :=
  cbn [Nat.add next blocks]; split; [lia|];
  let l := fresh "l" in let Hl := fresh "Hl" in
  intros l Hl;
  repeat first
    [ progress lookup_norm
    | rewrite free_blocks_lookup_notin;
      [| let Hin := fresh "Hin" in
         intros Hin; apply Hreach in Hin; not_listed Hin ] ];
  reflexivity.

(** X8.  A request, whichever entry point it came through, neither writes
    nor releases any block that was allocated before it started, and the
    allocation counter never moves back: for the asynchronous variants up to
    the end of the completion handler, for the synchronous ones up to the
    point where they stop. *)
Theorem requests_leave_older_blocks_alone source cb ecb inc style comments mapPath e h :
  uv_queue_work_status e = 0 →
  SassContract Sass →
  SassFreesReachable Sass →
  let untouched (h' : heap) :=
    (next h ≤ next h')%nat ∧ ∀ l, (l < next h)%nat → blocks h' !! l = blocks h !! l in
  wp (run_to_completion (Render source cb ecb inc style comments e)) h
     (fun _ h' _ => untouched h') ∧
  wp (run_to_completion (OldRender source cb inc style comments e)) h
     (fun _ h' _ => untouched h') ∧
  wp (run_to_completion (RenderFile source cb ecb inc style comments mapPath e)) h
     (fun _ h' _ => untouched h') ∧
  stops (RenderSync source inc style comments) h (fun _ h' _ => untouched h') ∧
  stops (RenderFileSync source inc style comments) h (fun _ h' _ => untouched h').
Proof.
  intros He Hok Hreach untouched. subst untouched. destruct h as [n m].
  split; [|split; [|split; [|split]]].
  - enter_async He. repeat wp_step. request_norm.
    engine_cases; repeat wp_step; older_blocks free_context_wrapper_reachable.
  - enter_async He. repeat wp_step. request_norm.
    engine_cases; repeat wp_step; older_blocks free_context_wrapper_reachable.
  - enter_async He.
    generalize (Int32Value comments) (Int32Value style). intros c32 s32.
    destruct (c32 =? SASS_SOURCE_COMMENTS_MAP) eqn:Emap.
    all: repeat wp_step; request_norm.
    all: engine_cases.
    all: try (exfalso; apply Z.eqb_eq in Est; apply Z.eqb_eq in Emap;
              destruct (Hm Est Emap (ex_intro _ _ eq_refl)) as [? HN];
              discriminate HN).
    all: repeat wp_step; older_blocks free_file_context_wrapper_reachable.
  - unfold RenderSync. repeat run_step. request_norm.
    engine_cases; repeat run_step; stop_at_destructor;
      older_blocks free_context_reachable.
  - unfold RenderFileSync. repeat run_step. request_norm.
    engine_cases; repeat run_step; stop_at_destructor;
      older_blocks free_file_context_reachable.
Qed.

(** X9.  Where [assert] is compiled out, a failed submission makes [Render]
    return [undefined] with nothing queued: only the two [String::AsciiValue]
    buffers are released, and the context, the wrapper, the source copy, the
    include-path buffer, the image path and both callback objects stay
    allocated. *)
Theorem dropped_submission_leaks_the_request source cb ecb inc style comments e h :
  uv_queue_work_status e ≠ 0 →
  NDEBUG e = true →
  wp (Render source cb ecb inc style comments e) h
     (fun r h' evs =>
        r = (ReturnValue VUndefined, None) ∧
        evs = [EvFree (3 + next h)%nat; EvFree (2 + next h)%nat] ∧
        ∀ k, k ∈ [0; 1; 4; 5; 6; 7; 8]%nat →
             ∃ b, blocks h' !! (k + next h)%nat = Some b ∧ b_frees b = 0%nat).
Proof.
  intros He Hnd. destruct h as [n m]. destruct e as [st nd].
  cbn [uv_queue_work_status NDEBUG] in *. subst nd.
  unfold Render, uv_queue_work, assert_fails. cbn [uv_queue_work_status NDEBUG].
  apply Z.eqb_neq in He. rewrite He. cbn [negb andb].
  repeat wp_step. do 2 (split; [reflexivity|]).
  intros k Hk.
  repeat (apply elem_of_cons in Hk as [->|Hk];
          [cbn [Nat.add]; lookup_norm; by eexists|]).
  by apply elem_of_nil in Hk.
Qed.

Ltac engine_cases_at r :=
  let Hr := fresh "Hr" in
  let st := fresh "st" in
  let Est := fresh "Est" in
  pose proof (compile_ok r) as Hr; unfold result_ok in Hr;
  destruct (sass_compile r) as [st [?out|] [?msg|] ?mp];
  cbn [res_error_status res_output_string res_error_message res_source_map_string] in *;
  destruct (st =? 0) eqn:Est;
  try (destruct Hr as [? Hr]; discriminate Hr);
  record_norm.

Ltac request_norm_through Hreach :=
  repeat match goal with
  | |- context [deref (Heap ?k ?m) ?p] =>
      let d := fresh "d" in let Hd := fresh "Hd" in
      remember (deref (Heap k m) p) as d eqn:Hd;
      unfold deref in Hd; cbn [blocks] in Hd;
      repeat first
        [ rewrite lookup_insert_eq in Hd
        | rewrite lookup_alter_eq in Hd
        | rewrite lookup_insert_ne in Hd by lia
        | rewrite lookup_alter_ne in Hd by lia
        | rewrite free_blocks_lookup_notin in Hd
            by (let Hin := fresh "Hin" in
                intros Hin; apply Hreach in Hin; not_listed Hin) ];
      cbn [fmap option_fmap option_map free_block write_block
           b_origin b_size b_data b_frees] in Hd;
      subst d
  end;
  rewrite ?c_str_idemp.

Lemma calls_skip_free l evs : calls (EvFree l :: evs) = calls evs.
Proof. reflexivity. Qed.
Lemma calls_skip_compile r evs : calls (EvCompile r :: evs) = calls evs.
Proof. reflexivity. Qed.
Lemma calls_keep_call s f argv evs :
  calls (EvCall s f argv :: evs) = EvCall s f argv :: calls evs.
Proof. reflexivity. Qed.
Lemma calls_skip_frees ls evs : calls (map EvFree ls ++ evs) = calls evs.
Proof. by rewrite calls_app, calls_frees. Qed.
Lemma calls_skip_fatal (b : bool) evs :
  calls ((if b then [EvFatalException] else []) ++ evs) = calls evs.
Proof. by rewrite calls_app, calls_fatal. Qed.
Lemma compile_requests_skip_free l evs :
  compile_requests (EvFree l :: evs) = compile_requests evs.
Proof. reflexivity. Qed.
Lemma compile_requests_keep_compile r evs :
  compile_requests (EvCompile r :: evs) = r :: compile_requests evs.
Proof. reflexivity. Qed.
Lemma compile_requests_skip_call s f argv evs :
  compile_requests (EvCall s f argv :: evs) = compile_requests evs.
Proof. reflexivity. Qed.
Lemma compile_requests_skip_frees ls evs :
  compile_requests (map EvFree ls ++ evs) = compile_requests evs.
Proof. by rewrite compile_requests_app, compile_requests_frees. Qed.
Lemma compile_requests_skip_fatal (b : bool) evs :
  compile_requests ((if b then [EvFatalException] else []) ++ evs) = compile_requests evs.
Proof. by rewrite compile_requests_app, compile_requests_fatal. Qed.

Ltac read_log :=
  rewrite <- ?app_assoc; cbn [app];
  repeat first
    [ rewrite calls_skip_free | rewrite calls_skip_compile | rewrite calls_keep_call
    | rewrite calls_skip_frees | rewrite calls_skip_fatal
    | rewrite compile_requests_skip_free | rewrite compile_requests_keep_compile
    | rewrite compile_requests_skip_call | rewrite compile_requests_skip_frees
    | rewrite compile_requests_skip_fatal
    | rewrite calls_frees | rewrite compile_requests_frees
    | rewrite calls_nil | rewrite compile_requests_nil ].

Ltac through_frees Hreach :=
  repeat first
    [ progress lookup_norm
    | rewrite free_blocks_lookup_notin;
      [| let Hin := fresh "Hin" in
         intros Hin; apply Hreach in Hin; not_listed Hin ] ].

Ltac wp_step_through Hreach :=
  first
    [ wp_step
    | lazymatch goal with
      | |- wp (String_New _) _ _ =>
          eapply wp_String_New;
          [ unfold deref; cbn [blocks]; through_frees Hreach; reflexivity |];
          record_norm
      | |- wp (release (Some _)) _ _ =>
          apply wp_release_Some;
          [ unfold live; cbn [blocks]; through_frees Hreach; reflexivity |];
          record_norm
      end ].

(** X12.  [OldRender] and [Render] hand libsass the same request for the same
    source and options and deliver the same text; only the convention
    differs: on success the legacy callback gets [null] in front of the
    output text, on failure both get the error message alone. *)
Theorem OldRender_and_Render_differ_in_convention_only source cb ecb inc style comments e h :
  uv_queue_work_status e = 0 →
  SassContract Sass →
  let res := sass_compile (async_request source style comments) in
  wp (run_to_completion (OldRender source cb inc style comments e)) h
     (fun _ _ evs_old =>
        wp (run_to_completion (Render source cb ecb inc style comments e)) h
           (fun _ _ evs_new =>
              compile_requests evs_old = compile_requests evs_new ∧
              ∃ text,
                if res_error_status res =? 0
                then calls evs_old = [EvCall CallbackSlot cb [VNull; VString text]] ∧
                     calls evs_new = [EvCall CallbackSlot cb [VString text]]
                else calls evs_old = [EvCall CallbackSlot cb [VString text]] ∧
                     calls evs_new = [EvCall ErrorCallbackSlot ecb [VString text]])).
Proof.
  intros He Hok res.
  eapply wp_mono; [by apply OldRender_log|]. intros r h' evs_old (_ & -> & ->).
  eapply wp_mono; [by apply Render_log|]. intros r' h'' evs_new (_ & -> & ->).
  split; [reflexivity|]. fold res. unfold legacy_call, modern_call.
  destruct (res_error_status res =? 0); eauto.
Qed.
End Facts.

(** * The sample libsass respects the contract *)

Lemma sample_contract : SassContract sample_sass.
Proof.
  split; intros req.
  - unfold result_ok. cbn [sass_compile sample_sass]. unfold sample_compile.
    destruct (req_source_string req) as [| | |s]; cbn; eauto.
    destruct (String.eqb s "a{"); cbn; eauto.
  - unfold result_ok. cbn [sass_compile_file sample_sass]. unfold sample_compile_file.
    destruct (freq_input_path req), (freq_source_map_file req); cbn; eauto.
  - unfold map_ok. cbn [sass_compile_file sample_sass]. unfold sample_compile_file.
    destruct (freq_input_path req), (freq_source_map_file req); cbn;
      intros Hst Hmap [? Hs]; eauto; discriminate.
Qed.

(** The sample writes a map to any path that is not empty. *)
Lemma sample_writes_maps : SassWritesMaps sample_sass (fun s => s ≠ "").
Proof.
  intros req. unfold map_written. cbn [sass_compile_file sample_sass].
  unfold sample_compile_file.
  destruct (freq_input_path req), (freq_source_map_file req);
    cbn [res_error_status res_source_map_string];
    intros Hst Hmap (s' & Hs & Hne); try discriminate.
  eexists. split; [reflexivity|]. discriminate.
Qed.

Lemma sample_frees_reachable : SassFreesReachable sample_sass.
Proof.
  split; intros; cbn [sass_free_context sass_free_file_context sass_free_context_wrapper
                      sass_free_file_context_wrapper sample_sass];
    unfold wrapper_pointers, file_wrapper_pointers, context_pointers, file_context_pointers;
    repeat match goal with
           | |- context [option_to_list ?o] => destruct o; cbn [option_to_list]
           end;
    cbn [app]; intros x; rewrite ?elem_of_cons, ?elem_of_nil; tauto.
Qed.

(** * Concrete runs *)

Lemma exactly_one_callback_per_request_witness :
  uv_queue_work_status good_host = 0 ∧
  wp (run_to_completion (Render "a{" (quiet "ok") (quiet "err") "/inc" 0 0 good_host))
     empty_heap
     (fun _ _ evs => ∃ argv, calls evs = [EvCall ErrorCallbackSlot (quiet "err") argv]).
Proof.
  split; [reflexivity|].
  exact (proj1 (exactly_one_callback_per_request good_host empty_heap eq_refl sample_contract)
               "a{" (quiet "ok") (quiet "err") "/inc" 0 0).
Defined.

Lemma Render_never_releases_include_paths_copy_witness :
  uv_queue_work_status good_host = 0 ∧
  wp (run_to_completion (Render "a{}" (raising "ok") (quiet "err") "/inc" 0 0 good_host))
     empty_heap
     (fun _ h' _ => blocks h' !! 5%nat = Some (Block NewCharArray 5 None 0)).
Proof.
  split; [reflexivity|].
  eapply wp_mono.
  - exact (Render_never_releases_include_paths_copy
             "a{}" (raising "ok") (quiet "err") "/inc" 0 0 good_host empty_heap
             eq_refl sample_contract sample_frees_reachable).
  - intros _ h' evs [_ Hleak]. exact Hleak.
Defined.

Lemma RenderSync_leaks_copy_and_frees_caller_buffer_twice_witness :
  stops (RenderSync "a{}" "/inc" 0 0) empty_heap
     (fun f h' _ =>
        f = DoubleDelete 2 ∧
        blocks h' !! 4%nat = Some (Block NewCharArray 5 None 0) ∧
        blocks h' !! 2%nat = Some (Block AsciiValueBuffer 5 (Some "/inc") 2)).
Proof.
  exact (RenderSync_leaks_copy_and_frees_caller_buffer_twice
           "a{}" "/inc" 0 0 empty_heap sample_contract sample_frees_reachable).
Defined.

Lemma OldRender_callback_arguments_witness :
  uv_queue_work_status good_host = 0 ∧
  wp (run_to_completion (OldRender "a{" (quiet "cb") "/inc" 0 0 good_host)) empty_heap
     (fun _ _ evs =>
        ∃ argv, calls evs = [EvCall CallbackSlot (quiet "cb") argv] ∧
                argv = [VString "source string:1: error: invalid property name"] ∧
                argument argv 1 = VUndefined).
Proof.
  split; [reflexivity|].
  eapply wp_mono.
  - exact (OldRender_callback_arguments "a{" (quiet "cb") "/inc" 0 0 good_host empty_heap
             eq_refl sample_contract).
  - intros _ _ evs (argv & Hcalls & Hargv & _ & Hslot). eauto.
Defined.

Lemma Render_include_paths_alias_caller_buffer_witness :
  uv_queue_work_status good_host = 0 ∧
  wp (Render "a{}" (quiet "ok") (quiet "err") "/inc" 0 0 good_host) empty_heap
     (fun r h' _ =>
        ∃ w, r = (ReturnValue VUndefined, Some (RenderWork w)) ∧
             include_paths (options (ctx w)) = Some 3%nat ∧
             blocks h' !! 3%nat = Some (Block AsciiValueBuffer 5 (Some "/inc") 1) ∧
             deref h' (include_paths (options (ctx w))) = CDangling).
Proof.
  split; [reflexivity|].
  eapply wp_mono.
  - exact (Render_include_paths_alias_caller_buffer
             "a{}" (quiet "ok") (quiet "err") "/inc" 0 0 good_host empty_heap eq_refl).
  - intros r h' _ (w & Hr & _ & _ & Hinc & Hblock & Hdangling & _). eauto.
Defined.


Lemma async_and_sync_agree_apart_from_include_paths_and_map_witness :
  uv_queue_work_status good_host = 0 ∧
  wp (run_to_completion (Render "a{}" (quiet "ok") (quiet "err") "/inc" 0 0 good_host))
     empty_heap
     (fun _ _ evs_a =>
        stops (RenderSync "a{}" "/inc" 0 0) empty_heap
           (fun _ _ evs_s =>
              req_source_string <$> compile_requests evs_a
              = req_source_string <$> compile_requests evs_s ∧
              async_outcome (calls evs_a) = Some (Delivered "/* css */ a{}"))).
Proof.
  split; [reflexivity|].
  pose proof (async_and_sync_agree_apart_from_include_paths_and_map
                "a{}" (quiet "ok") (quiet "err") "/inc" 0 0 "" good_host empty_heap
                eq_refl sample_contract) as H.
  cbv zeta in H. destruct H as (_ & _ & H & _).
  eapply wp_mono; [exact H|]. intros c_a h_a evs_a Hsync. cbv beta in Hsync.
  eapply stops_mono; [exact Hsync|].
  intros f h_s evs_s (Ha & Hs & Hout & _).
  rewrite Ha, Hs, Hout. split; reflexivity.
Defined.

Lemma failed_submission_aborts_or_is_dropped_witness :
  uv_queue_work_status (Host (-1) false) ≠ 0 ∧
  wp (run_to_completion (Render "a{}" (quiet "ok") (quiet "err") "" 0 0 (Host (-1) false)))
     empty_heap
     (fun r _ evs => r = AssertionFailed ∧ calls evs = [] ∧ compile_requests evs = []).
Proof.
  assert (Hst : uv_queue_work_status (Host (-1) false) ≠ 0) by discriminate.
  split; [exact Hst|].
  exact (proj1 (failed_submission_aborts_or_is_dropped (Host (-1) false) empty_heap Hst)
               "a{}" (quiet "ok") (quiet "err") "" 0 0).
Defined.

Lemma enumeration_arguments_are_stored_unvalidated_witness :
  uv_queue_work_status good_host = 0 ∧
  wp (run_to_completion (Render "a{}" (quiet "ok") (quiet "err") "" 7 (-1) good_host))
     empty_heap
     (fun r _ evs =>
        r = ReturnValue VUndefined ∧
        req_output_style <$> compile_requests evs = [7] ∧
        req_source_comments <$> compile_requests evs = [-1]) ∧
  stops (RenderFileSync "in.scss" "" 7 (-1)) empty_heap
     (fun _ _ evs =>
        freq_output_style <$> compile_file_requests evs = [7] ∧
        freq_source_comments <$> compile_file_requests evs = [-1]).
Proof.
  split; [reflexivity|].
  pose proof (enumeration_arguments_are_stored_unvalidated 7 (-1) good_host empty_heap
                eq_refl sample_contract) as H.
  cbv zeta in H. destruct H as (Hrender & _ & _ & _ & Hsync & _). split.
  - exact (proj2 (Hrender "a{}" (quiet "ok") (quiet "err") "")).
  - exact (Hsync "in.scss" "").
Defined.


(** * Concrete runs of the further facts *)


Lemma modern_callback_arguments_witness :
  uv_queue_work_status good_host = 0 ∧
  wp (run_to_completion (Render "a{}" (quiet "ok") (quiet "err") "/inc" 0 0 good_host))
     empty_heap
     (fun _ _ evs => calls evs = [EvCall CallbackSlot (quiet "ok") [VString "/* css */ a{}"]]).
Proof.
  split; [reflexivity|].
  pose proof (modern_callback_arguments "a{}" (quiet "ok") (quiet "err") "/inc" 0 0 ""
                good_host empty_heap eq_refl sample_contract) as H.
  cbv zeta in H. destruct H as [H _].
  eapply wp_mono; [exact H|]. intros r h' evs [Hok _]. apply Hok. reflexivity.
Defined.

Lemma RenderFileSync_leaks_copy_and_frees_caller_buffer_twice_witness :
  stops (RenderFileSync "in.scss" "/inc" 0 0) empty_heap
     (fun f h' _ =>
        f = DoubleDelete 2 ∧
        blocks h' !! 4%nat = Some (Block NewCharArray 5 None 0) ∧
        blocks h' !! 2%nat = Some (Block AsciiValueBuffer 5 (Some "/inc") 2)).
Proof.
  exact (RenderFileSync_leaks_copy_and_frees_caller_buffer_twice
           "in.scss" "/inc" 0 0 empty_heap sample_contract sample_frees_reachable).
Defined.


Lemma OldRender_escalates_then_releases_but_leaks_copy_witness :
  uv_queue_work_status good_host = 0 ∧
  wp (OldRender "a{}" (raising "cb") "/inc" 0 0 good_host) empty_heap
     (fun r h1 _ =>
        ∃ w, r = (ReturnValue VUndefined, Some (OldRenderWork w)) ∧
          wp (WorkOnContext w) h1
             (fun w' h2 _ =>
                wp (MakeOldCallback w') h2
                   (fun _ h3 evs3 =>
                      evs3 = [EvCall CallbackSlot (raising "cb")
                                [VNull; VString "/* css */ a{}"];
                              EvFatalException; EvFree 4%nat]
                             ++ map EvFree (sass_free_context_wrapper w') ∧
                      blocks h3 !! 5%nat = Some (Block NewCharArray 5 None 0)))).
Proof.
  split; [reflexivity|].
  eapply wp_mono.
  - exact (OldRender_escalates_then_releases_but_leaks_copy
             "a{}" (raising "cb") "/inc" 0 0 good_host empty_heap
             eq_refl sample_contract sample_frees_reachable).
  - intros r h1 evs1 (w & Hr & _ & Hwork). exists w. split; [exact Hr|].
    eapply wp_mono; [exact Hwork|]. intros w' h2 evs2 (_ & _ & Hdone).
    eapply wp_mono; [exact Hdone|]. intros r3 h3 evs3 [(argv & Hcall & Hevs) Hleak].
    split; [|exact Hleak].
    injection Hcall as <-. exact Hevs.
Defined.

Lemma RenderFile_escalates_then_releases_but_leaks_copy_witness :
  uv_queue_work_status good_host = 0 ∧
  wp (RenderFile "in.scss" (quiet "ok") (quiet "err") "/inc" 0 2 "out.css.map" good_host)
     empty_heap
     (fun r h1 _ =>
        ∃ w, r = (ReturnValue VUndefined, Some (RenderFileWork w)) ∧
          wp (WorkOnFileContext w) h1
             (fun w' h2 _ =>
                wp (MakeFileCallback w') h2
                   (fun _ h3 _ =>
                      blocks h3 !! 6%nat = Some (Block NewCharArray 5 None 0)))).
Proof.
  split; [reflexivity|].
  pose proof (RenderFile_escalates_then_releases_but_leaks_copy
                "in.scss" (quiet "ok") (quiet "err") "/inc" 0 2 "out.css.map" good_host
                empty_heap eq_refl sample_contract sample_frees_reachable) as H.
  cbv zeta in H.
  eapply wp_mono; [exact H|].
  intros r h1 evs1 (w & Hr & _ & Hwork). exists w. split; [exact Hr|].
  eapply wp_mono; [exact Hwork|]. intros w' h2 evs2 (_ & _ & Hdone).
  eapply wp_mono; [exact Hdone|]. intros r3 h3 evs3 [_ Hleak]. exact Hleak.
Defined.

Lemma RenderFile_copies_fit_their_buffers_witness :
  uv_queue_work_status good_host = 0 ∧
  wp (RenderFile "in.scss" (quiet "ok") (quiet "err") "/inc" 0 2 "out.css.map" good_host)
     empty_heap
     (fun r h' _ =>
        ∃ w, r = (ReturnValue VUndefined, Some (RenderFileWork w)) ∧
             blocks h' !! 5%nat = Some (Block NewCharArray 8 (Some "in.scss") 0) ∧
             source_map_file (file_ctx w) = Some 8%nat ∧
             blocks h' !! 8%nat = Some (Block NewCharArray 12 (Some "out.css.map") 0)).
Proof.
  split; [reflexivity|].
  eapply wp_mono.
  - exact (RenderFile_copies_fit_their_buffers
             "in.scss" (quiet "ok") (quiet "err") "/inc" 0 2 "out.css.map" good_host
             empty_heap eq_refl).
  - intros r h' evs (w & Hr & _ & Hpath & Hmap & Hblock). eauto.
Defined.

Lemma requests_leave_older_blocks_alone_witness :
  uv_queue_work_status good_host = 0 ∧
  wp (run_to_completion (Render "a{}" (quiet "ok") (quiet "err") "/inc" 0 0 good_host))
     busy_heap
     (fun _ h' _ => blocks h' !! 0%nat = Some (Block EngineString 6 (Some "a { }") 0)).
Proof.
  split; [reflexivity|].
  pose proof (requests_leave_older_blocks_alone
                "a{}" (quiet "ok") (quiet "err") "/inc" 0 0 "" good_host busy_heap
                eq_refl sample_contract sample_frees_reachable) as H.
  cbv zeta in H. destruct H as [H _].
  eapply wp_mono; [exact H|]. intros r h' evs [_ Hold].
  rewrite (Hold 0%nat) by (cbn; lia). reflexivity.
Defined.

Lemma dropped_submission_leaks_the_request_witness :
  uv_queue_work_status (Host (-1) true) ≠ 0 ∧
  NDEBUG (Host (-1) true) = true ∧
  wp (Render "a{}" (quiet "ok") (quiet "err") "/inc" 0 0 (Host (-1) true)) empty_heap
     (fun r h' _ =>
        r = (ReturnValue VUndefined, None) ∧
        ∃ b, blocks h' !! 4%nat = Some b ∧ b_frees b = 0%nat).
Proof.
  assert (Hst : uv_queue_work_status (Host (-1) true) ≠ 0) by discriminate.
  split; [exact Hst|]. split; [reflexivity|].
  eapply wp_mono.
  - exact (dropped_submission_leaks_the_request
             "a{}" (quiet "ok") (quiet "err") "/inc" 0 0 (Host (-1) true) empty_heap
             Hst eq_refl).
  - intros r h' evs (Hr & _ & Hleak). split; [exact Hr|].
    apply (Hleak 4%nat). repeat constructor.
Defined.


Lemma OldRender_and_Render_differ_in_convention_only_witness :
  uv_queue_work_status good_host = 0 ∧
  wp (run_to_completion (OldRender "a{}" (quiet "cb") "/inc" 0 0 good_host)) empty_heap
     (fun _ _ evs_old =>
        wp (run_to_completion (Render "a{}" (quiet "cb") (quiet "err") "/inc" 0 0 good_host))
           empty_heap
           (fun _ _ evs_new =>
              ∃ text,
                calls evs_old = [EvCall CallbackSlot (quiet "cb") [VNull; VString text]] ∧
                calls evs_new = [EvCall CallbackSlot (quiet "cb") [VString text]])).
Proof.
  split; [reflexivity|].
  pose proof (OldRender_and_Render_differ_in_convention_only
                "a{}" (quiet "cb") (quiet "err") "/inc" 0 0 good_host empty_heap
                eq_refl sample_contract) as H.
  cbv zeta in H.
  eapply wp_mono; [exact H|]. intros r h' evs_old Hnew.
  cbv beta in Hnew.
  eapply wp_mono; [exact Hnew|]. intros r' h'' evs_new [_ [text Hcalls]].
  exists text. exact Hcalls.
Defined.

(** * Where the stated behaviour fails *)

(** C7, as stated, fails: in map mode [RenderFile] hands libsass the map file
    and [RenderFileSync] does not, so the two requests are not equivalent;
    and a compiler that, like libsass, names the map file in its output
    answers them with different output texts. *)
Lemma async_and_sync_file_variants_differ_in_map_mode :
  ∃ ra f hs evs_s qa qs,
    run_to_completion
      (RenderFile "in.scss" (quiet "ok") (quiet "err") "" 0 2 "out.css.map" good_host)
      empty_heap = Finished ra ∧
    RenderFileSync "in.scss" "" 0 2 empty_heap = Stopped f hs evs_s ∧
    compile_file_requests (events ra) = [qa] ∧
    compile_file_requests evs_s = [qs] ∧
    freq_source_map_file qa = CText "out.css.map" ∧
    freq_source_map_file qs = CNull ∧
    qa ≠ qs ∧
    async_outcome (calls (events ra))
      = Some (Delivered "/* file */ in.scss /*# sourceMappingURL=out.css.map */") ∧
    answer_outcome (sass_compile_file qs) = Delivered "/* file */ in.scss" ∧
    async_outcome (calls (events ra)) ≠ Some (answer_outcome (sass_compile_file qs)).
Proof.
  do 6 eexists. split; [vm_compute; reflexivity|]. split; [vm_compute; reflexivity|].
  split; [vm_compute; reflexivity|]. split; [vm_compute; reflexivity|].
  repeat split; vm_compute; try reflexivity; discriminate.
Qed.

(** C8, as stated, fails: when [uv_queue_work] answers a non-zero status no
    callback is invoked and no error is raised, whether [assert] is compiled
    in or out. *)
Lemma failed_submission_is_not_reported :
  ∃ r1 r2,
    run_to_completion (Render "a{}" (quiet "ok") (quiet "err") "" 0 0 (Host (-1) false))
      empty_heap = Finished r1 ∧
    run_to_completion (Render "a{}" (quiet "ok") (quiet "err") "" 0 0 (Host (-1) true))
      empty_heap = Finished r2 ∧
    result r1 = AssertionFailed ∧ result r2 = ReturnValue VUndefined ∧
    ¬ reported r1 ∧ ¬ reported r2.
Proof.
  do 2 eexists. split; [vm_compute; reflexivity|]. split; [vm_compute; reflexivity|].
  split; [reflexivity|]. split; [reflexivity|].
  split; intros [[v Hv]|Hcalls]; solve [discriminate Hv | apply Hcalls; reflexivity].
Qed.

(** C9, as stated, fails: style 7 and comment mode 5 are neither rejected nor
    brought into range; they are stored and handed to libsass. *)
Lemma out_of_range_enumeration_arguments_are_not_policed :
  ∃ r,
    run_to_completion (Render "a{}" (quiet "ok") (quiet "err") "" 7 5 good_host)
      empty_heap = Finished r ∧
    result r = ReturnValue VUndefined ∧
    (req_output_style <$> compile_requests (events r)) = [7] ∧
    (req_source_comments <$> compile_requests (events r)) = [5] ∧
    ¬ policed 0 3 7 (result r) ∧ ¬ policed 0 2 5 (result r).
Proof.
  eexists. split; [vm_compute; reflexivity|].
  split; [reflexivity|]. split; [reflexivity|]. split; [reflexivity|].
  split; intros [Hrange|[v Hv]]; solve [lia | discriminate Hv].
Qed.
